(** * Serial port primitives (lang/LangPrimSource/PyrSerialPrim.cpp)

    A shallow embedding of the [SerialPort] class and of the [prSerialPort_*]
    primitives, followed by the properties of the engine that the design
    document states about it.

    The class sits on two external libraries and on the host interpreter.
    Each of them is represented by a small executable model, kept in a module
    of its own:
    - [Asio]: [boost::asio::serial_port], with the exceptions its members
      throw and the asynchronous operations it has been asked to perform;
    - [spsc_queue]: [boost::lockfree::spsc_queue] with a compile-time capacity;
    - [Host]: the slots of the interpreter and their accessors.

    Exceptions are explicit: a call either returns, throws, or ends the
    process through [std::terminate]. *)

From Stdlib Require Import String ZArith List Bool Lia.
Import ListNotations.
Open Scope string_scope.
Open Scope list_scope.
Open Scope Z_scope.

(* ===================================================================== *)
(** ** Machine integers *)

(** [int] is 32 bits wide; arithmetic on it is written with its wrap-around. *)
Definition wrap_int (z : Z) : Z := (z + 2^31) mod 2^32 - 2^31.

(** [static_cast<unsigned int>]. *)
Definition to_unsigned (z : Z) : Z := z mod 2^32.

(** Conversion to [uint8_t]. *)
Definition to_uint8 (z : Z) : Z := z mod 256.

Definition is_int (z : Z) : Prop := - 2^31 <= z < 2^31.
Definition is_uint8 (z : Z) : Prop := 0 <= z < 256.

(* ===================================================================== *)
(** ** The world outside the process image of one port *)

(** What the primitives can change outside the [SerialPort] object itself.
    Lines written to stdout with [printf] are not part of it. *)
Record World := mkWorld {
  open_fds : nat;                         (* descriptors the process holds open *)
  line_out : list Z;                      (* bytes the device has accepted, oldest first *)
  posted : list string;                   (* lines given to post(), oldest first *)
  interpreter_calls : list (string * nat) (* runInterpreter(g, method, 1) with the receiver pushed *)
}.

Definition with_fds (f : nat -> nat) (w : World) : World :=
  mkWorld (f (open_fds w)) (line_out w) (posted w) (interpreter_calls w).
Definition emit (bs : list Z) (w : World) : World :=
  mkWorld (open_fds w) (line_out w ++ bs) (posted w) (interpreter_calls w).
Definition post (s : string) (w : World) : World :=
  mkWorld (open_fds w) (line_out w) (posted w ++ [s]) (interpreter_calls w).
Definition runInterpreter (method : string) (receiver : nat) (w : World) : World :=
  mkWorld (open_fds w) (line_out w) (posted w) (interpreter_calls w ++ [(method, receiver)]).

(* ===================================================================== *)
(** ** Exceptions and the state-and-exception monad *)

Inductive errc :=
| bad_descriptor            (* EBADF *)
| operation_aborted         (* ECANCELED *)
| no_such_file_or_directory (* ENOENT *)
| permission_denied         (* EACCES *)
| device_or_resource_busy   (* EBUSY *)
| invalid_argument          (* EINVAL *)
| io_error.                 (* EIO *)

Definition message (ec : errc) : string :=
  match ec with
  | bad_descriptor => "Bad file descriptor"
  | operation_aborted => "Operation canceled"
  | no_such_file_or_directory => "No such file or directory"
  | permission_denied => "Permission denied"
  | device_or_resource_busy => "Device or resource busy"
  | invalid_argument => "Invalid argument"
  | io_error => "Input/output error"
  end.

(** The two exception classes that reach this file, both derived from
    [std::exception]: [boost::system::system_error], as raised by
    [boost::asio::detail::throw_error(ec, location)], and [std::out_of_range]. *)
Inductive exn :=
| system_error (ec : errc) (location : string)
| out_of_range (msg : string).

Definition what (e : exn) : string :=
  match e with
  | system_error ec location => (location ++ ": " ++ message ec)%string
  | out_of_range msg => msg
  end.

Inductive outcome (A : Type) :=
| Ok (a : A)        (* the call returns *)
| Throw (e : exn)   (* an exception leaves the call *)
| Terminate.        (* std::terminate *)
Arguments Ok {A} a.
Arguments Throw {A} e.
Arguments Terminate {A}.

Definition M (A : Type) : Type := World -> outcome A * World.

Definition ret {A} (a : A) : M A := fun w => (Ok a, w).
Definition throw {A} (e : exn) : M A := fun w => (Throw e, w).
Definition bind {A B} (m : M A) (k : A -> M B) : M B :=
  fun w =>
    match m w with
    | (Ok a, w') => k a w'
    | (Throw e, w') => (Throw e, w')
    | (Terminate, w') => (Terminate, w')
    end.
Definition effect (f : World -> World) : M unit := fun w => (Ok tt, f w).

Notation "x <- m ;; k" := (bind m (fun x => k))
  (at level 61, m at next level, right associativity).
Notation "m ;;; k" := (bind m (fun _ => k))
  (at level 61, right associativity).

(** [try { body } catch (std::exception&) { handler }]. *)
Definition try_catch {A} (body : M A) (handler : exn -> M A) : M A :=
  fun w =>
    match body w with
    | (Throw e, w') => handler e w'
    | r => r
    end.

(** Stack unwinding: when [body] throws, the already constructed sub-object
    is destroyed by [cleanup] while the exception travels on. *)
Definition on_unwind {A} (body : M A) (cleanup : World -> World) : M A :=
  fun w =>
    match body w with
    | (Throw e, w') => (Throw e, cleanup w')
    | r => r
    end.

(** A destructor is [noexcept]: an exception that tries to leave it ends the
    process. *)
Definition noexcept {A} (body : M A) : M A :=
  fun w =>
    match body w with
    | (Throw _, w') => (Terminate, w')
    | r => r
    end.

(* ===================================================================== *)
(** ** boost::asio::serial_port *)

Module Asio.

(** [serial_port_base::parity::type] and its siblings. *)
Inductive parity_type := parity_none | parity_odd | parity_even.
Inductive stop_bits_type := stop_bits_one | stop_bits_onepointfive | stop_bits_two.
Inductive flow_control_type := flow_none | flow_software | flow_hardware.

(** A value that [set_option] can store on the descriptor. *)
Inductive setting :=
| baud_rate (rate : Z)
| parity (t : parity_type)
| character_size (bits : Z)
| stop_bits (t : stop_bits_type)
| flow_control (t : flow_control_type).

(** [character_size::character_size(unsigned int t)] refuses a width
    outside 5..8 with [std::out_of_range]; the other option classes are
    built here from enumerators and cannot be refused. *)
Definition make_character_size (t : Z) : M Z :=
  if (t <? 5) || (8 <? t)
  then throw (out_of_range "invalid character_size value")
  else ret t.

Inductive op_kind := async_read_some | async_write_some.

(** An asynchronous operation that has been started and whose handler has
    not run yet.  [op_fate] is [Some ec] once it is settled that the
    operation completes with [ec]: it was cancelled, or it was started on a
    descriptor that is not open. *)
Record async_op := mkOp {
  op_kind_of : op_kind;
  op_size : Z;
  op_fate : option errc
}.

Record serial_port := mkPort {
  sp_device : string;
  sp_open : bool;
  sp_settings : list setting;   (* in the order they were applied *)
  sp_pending : list async_op    (* oldest first *)
}.

Inductive write_result := Accepted (k : nat) | Refused (ec : errc).

(** The operating system and the hardware behind it. *)
Record Device := mkDevice {
  dev_open : string -> option errc;               (* None: the path opens *)
  dev_set : string -> setting -> option errc;     (* None: the setting is taken *)
  dev_write : string -> list Z -> list Z -> write_result
    (* device, bytes accepted so far, bytes offered *)
}.

Section WithDevice.
Variable dev : Device.

(** [serial_port(io_service&, const char* device)]: throws from "open". *)
Definition open (device : string) : M serial_port :=
  match dev_open dev device with
  | None =>
      effect (with_fds S) ;;;
      ret (mkPort device true [] [])
  | Some ec => throw (system_error ec "open")
  end.

(** [set_option]: throws from "set_option". *)
Definition set_option (o : setting) (p : serial_port) : M serial_port :=
  if sp_open p then
    match dev_set dev (sp_device p) o with
    | None => ret (mkPort (sp_device p) true (sp_settings p ++ [o]) (sp_pending p))
    | Some ec => throw (system_error ec "set_option")
    end
  else throw (system_error bad_descriptor "set_option").

(** [write_some(buffer)]: blocks, returns the number of bytes taken,
    throws from "write_some". *)
Definition write_some (buf : list Z) (p : serial_port) : M Z :=
  fun w =>
    if sp_open p then
      match dev_write dev (sp_device p) (line_out w) buf with
      | Accepted k =>
          let k := Nat.min k (length buf) in
          (Ok (Z.of_nat k), emit (firstn k buf) w)
      | Refused ec => (Throw (system_error ec "write_some"), w)
      end
    else (Throw (system_error bad_descriptor "write_some"), w).
End WithDevice.

Definition abort (op : async_op) : async_op :=
  match op_fate op with
  | None => mkOp (op_kind_of op) (op_size op) (Some operation_aborted)
  | Some _ => op
  end.

(** [cancel()]: every outstanding operation that has not been performed yet
    will complete with [operation_aborted], and the operations pending on the
    handle are taken to be of that kind; on a descriptor that is not open the
    call throws [bad_descriptor] from "cancel". *)
Definition cancel (p : serial_port) : M serial_port :=
  if sp_open p
  then ret (mkPort (sp_device p) true (sp_settings p) (map abort (sp_pending p)))
  else throw (system_error bad_descriptor "cancel").

(** [close()]: outstanding operations are cancelled and the descriptor is
    given back; closing a port that is not open is not an error. *)
Definition close (p : serial_port) : M serial_port :=
  if sp_open p
  then effect (with_fds pred) ;;;
       ret (mkPort (sp_device p) false (sp_settings p) (map abort (sp_pending p)))
  else ret p.

(** [~serial_port()]. *)
Definition destroy (p : serial_port) (w : World) : World :=
  if sp_open p then with_fds pred w else w.

(** [async_write_some(buffer(data, size), handler)] never throws; started
    on a closed port the operation is bound to fail. *)
Definition start (kind : op_kind) (size : Z) (p : serial_port) : serial_port :=
  let fate := if sp_open p then None else Some bad_descriptor in
  mkPort (sp_device p) (sp_open p) (sp_settings p)
         (sp_pending p ++ [mkOp kind size fate]).

End Asio.

(* ===================================================================== *)
(** ** boost::lockfree::spsc_queue<uint8_t, capacity<N>> *)

Module spsc_queue.

(** The elements waiting in the queue, oldest first. *)
Definition t := list Z.

Definition empty : t := [].

(** [push]: false, and nothing stored, when [capacity] elements wait. *)
Definition push (capacity : Z) (x : Z) (q : t) : bool * t :=
  if Z.of_nat (length q) <? capacity then (true, q ++ [x]) else (false, q).

(** [pop(ret)]: false when the queue is empty. *)
Definition pop (q : t) : option (Z * t) :=
  match q with
  | [] => None
  | x :: rest => Some (x, rest)
  end.

End spsc_queue.

(* ===================================================================== *)
(** ** The interpreter's slots *)

Module Host.

(** Modelled from the spec: the host runtime's value representation
    (PyrSlot.h) is not part of this file.  The primitives exchange
    "primitive scalars only": a device path, boolean flags, integers, a
    character or integer byte value, and they answer with an integer, a
    boolean or "nothing".  Only the tags that carry those are represented;
    the runtime's other tags (floats, symbols, ...) are left out. *)
Inductive PyrSlot :=
| SlotNil
| SlotTrue
| SlotFalse
| SlotInt (i : Z)
| SlotChar (c : Z)
| SlotString (s : string)
| SlotObject (id : nat).

(** The error codes a primitive returns. *)
Inductive errcode := errNone | errFailed | errWrongType.

Definition PATH_MAX : Z := 4096.

Definition IsTrue (s : PyrSlot) : bool :=
  match s with SlotTrue => true | _ => false end.

Definition IsChar (s : PyrSlot) : bool :=
  match s with SlotChar _ => true | _ => false end.

Definition slotRawChar (s : PyrSlot) : Z :=
  match s with SlotChar c => c | _ => 0 end.

(** Modelled from the spec: [slotIntVal] (PyrSlot.h) yields the integer an
    integer slot holds and [errWrongType] for a slot that holds no number. *)
Definition slotIntVal (s : PyrSlot) : errcode + Z :=
  match s with
  | SlotInt i => inr i
  | _ => inl errWrongType
  end.

(** Modelled from the spec: [slotStrVal] (PyrSlot.h) copies a string into a
    buffer of [maxlen] characters, cut to fit with its terminator, and
    yields [errWrongType] for a slot that holds no string. *)
Definition slotStrVal (s : PyrSlot) (maxlen : Z) : errcode + string :=
  match s with
  | SlotString str => inr (String.substring 0 (Z.to_nat (maxlen - 1)) str)
  | _ => inl errWrongType
  end.

Definition SetBool (b : bool) : PyrSlot := if b then SlotTrue else SlotFalse.

End Host.

(* ===================================================================== *)
(** ** class SerialPort *)

Definition kNumOptions : Z := 7.
Definition kBufferSize : Z := 8192.

Definition FIFO := spsc_queue.t.

Record Options := mkOptions {
  exclusive : bool;
  baudrate : Z;
  charsize : Z;
  stop_bits : Asio.stop_bits_type;
  parity : Asio.parity_type;
  crtscts : bool;
  flow_control : Asio.flow_control_type
}.

(** [Options{}]: the default member initialisers. *)
Definition default_options : Options :=
  mkOptions false 9600 8 Asio.stop_bits_two Asio.parity_none false Asio.flow_hardware.

Record SerialPort := mkSerialPort {
  m_obj : option nat;            (* language interface: the owning object, if any *)
  m_port : Asio.serial_port;
  m_options : Options;
  m_rxErrors : Z * Z;            (* m_rxErrors[0], m_rxErrors[1] *)
  m_rxfifo : FIFO;
  m_rxbuffer : list Z            (* kBufferSize bytes of scratch space *)
}.

(** The constructor initialises [m_obj], [m_port] and [m_options] only.
    [m_rxErrors] and [m_rxbuffer] have no initialiser, so they start with
    whatever the storage obtained by [new] held. *)
Record Storage := mkStorage {
  raw_rxErrors : Z * Z;
  raw_rxbuffer : list Z
}.

Definition set_port (p : Asio.serial_port) (this : SerialPort) : SerialPort :=
  mkSerialPort (m_obj this) p (m_options this) (m_rxErrors this) (m_rxfifo this) (m_rxbuffer this).
Definition set_rx (errs : Z * Z) (q : FIFO) (this : SerialPort) : SerialPort :=
  mkSerialPort (m_obj this) (m_port this) (m_options this) errs q (m_rxbuffer this).
Definition set_rxbuffer (buf : list Z) (this : SerialPort) : SerialPort :=
  mkSerialPort (m_obj this) (m_port this) (m_options this) (m_rxErrors this) (m_rxfifo this) buf.

Definition s_dataAvailable : string := "prDataAvailable".
Definition s_doneAction : string := "prDoneAction".

(** The five options the constructor applies, in its order. *)
Definition applied_options (options : Options) : list Asio.setting :=
  [ Asio.baud_rate (baudrate options);
    Asio.parity (parity options);
    Asio.character_size (charsize options);
    Asio.stop_bits (stop_bits options);
    Asio.flow_control (flow_control options) ].

(** The body of [doRead]'s loop, [index] running up to [bytesTransferred]:
    one byte of the scratch buffer is pushed, a refused push is counted in
    [m_rxErrors[1]]. *)
Fixpoint doRead_loop (rxbuffer : list Z) (index : nat) (remaining : nat)
         (fifo : FIFO) (errors1 : Z) : FIFO * Z :=
  match remaining with
  | O => (fifo, errors1)
  | S remaining' =>
      let byte := nth index rxbuffer 0 in
      let (putSuccessful, fifo') := spsc_queue.push kBufferSize byte fifo in
      doRead_loop rxbuffer (S index) remaining' fifo'
                  (if putSuccessful then errors1 else wrap_int (errors1 + 1))
  end.

Section Class.
Variable dev : Asio.Device.

(** [SerialPort(PyrObject* obj, const char* serialport, const Options&)].
    [m_port] is constructed first; when one of the [set_option] calls in
    the body throws, [m_port] is destroyed again on the way out. *)
Definition SerialPort_ctor (mem : Storage) (obj : option nat)
           (serialport : string) (options : Options) : M SerialPort :=
  port <- Asio.open dev serialport ;;
  on_unwind
    (p1 <- Asio.set_option dev (Asio.baud_rate (baudrate options)) port ;;
     p2 <- Asio.set_option dev (Asio.parity (parity options)) p1 ;;
     p3 <- Asio.set_option dev (Asio.character_size (charsize options)) p2 ;;
     p4 <- Asio.set_option dev (Asio.stop_bits (stop_bits options)) p3 ;;
     p5 <- Asio.set_option dev (Asio.flow_control (flow_control options)) p4 ;;
     (* FIXME: exclusive *)
     (* FIXME: crtscts *)
     ret (mkSerialPort obj p5 options (raw_rxErrors mem) spsc_queue.empty (raw_rxbuffer mem)))
    (Asio.destroy port).

Definition startRead (this : SerialPort) : SerialPort :=
  set_port (Asio.start Asio.async_write_some kBufferSize (m_port this)) this.

Definition options (this : SerialPort) : Options := m_options this.

Definition put (byte : Z) (this : SerialPort) : M bool :=
  written <- Asio.write_some dev [byte] (m_port this) ;;
  ret (written =? 1).

Definition get (this : SerialPort) : option Z * SerialPort :=
  match spsc_queue.pop (m_rxfifo this) with
  | None => (None, this)
  | Some (r, fifo') => (Some (Z.land r 255), set_rx (m_rxErrors this) fifo' this)
  end.

Definition rxErrors (this : SerialPort) : Z * SerialPort :=
  (* errors since last query *)
  let x := snd (m_rxErrors this) in
  let res := wrap_int (x - fst (m_rxErrors this)) in
  (res, set_rx (x, snd (m_rxErrors this)) (m_rxfifo this) this).

Definition stop (this : SerialPort) : M SerialPort :=
  p <- Asio.cancel (m_port this) ;;
  p' <- Asio.close p ;;
  ret (set_port p' this).

(** [~SerialPort() { stop(); }], then the members are destroyed. *)
Definition SerialPort_dtor (this : SerialPort) : M unit :=
  noexcept (this' <- stop this ;; effect (Asio.destroy (m_port this'))).

(** The interpreter is entered under [gLangMutex] when the port knows its
    object. *)
Definition dataAvailable (this : SerialPort) (w : World) : World :=
  match m_obj this with
  | Some obj => runInterpreter s_dataAvailable obj w
  | None => w
  end.

Definition doneAction (this : SerialPort) (w : World) : World :=
  match m_obj this with
  | Some obj => runInterpreter s_doneAction obj w
  | None => w
  end.

Definition doRead (error : option errc) (bytesTransferred : nat)
           (this : SerialPort) (w : World) : SerialPort * World :=
  match error with
  | Some _ =>
      (* what to do? *)
      (startRead this, w)
  | None =>
      let (fifo, errors1) :=
        doRead_loop (m_rxbuffer this) 0 bytesTransferred
                    (m_rxfifo this) (snd (m_rxErrors this)) in
      let this' := set_rx (fst (m_rxErrors this), errors1) fifo this in
      (startRead this', dataAvailable this' w)
  end.

End Class.

(* ===================================================================== *)
(** ** The event loop *)

(** How an operation that was not settled in advance ends. *)
Inductive io_result :=
| Written (n : nat)          (* a write took the first [n] bytes of its buffer *)
| Received (bs : list Z)     (* a read stored [bs] at the front of its buffer *)
| Failed (ec : errc).

(** A read leaves the bytes it received at the front of the buffer it was
    given. *)
Definition deposit (bs : list Z) (buffer : list Z) : list Z :=
  bs ++ skipn (length bs) buffer.

(** A completion that hands the chunk [bs] to the handler: the bytes lie at
    the front of the scratch buffer and [doRead] is entered without an error
    and with [bytesTransferred = |bs|]. *)
Definition deliver (bs : list Z) (this : SerialPort) (w : World) : SerialPort * World :=
  doRead None (length bs) (set_rxbuffer (deposit bs (m_rxbuffer this)) this) w.

Fixpoint deliver_all (chunks : list (list Z)) (this : SerialPort) (w : World)
  : SerialPort * World :=
  match chunks with
  | [] => (this, w)
  | bs :: chunks' => let (this', w') := deliver bs this w in deliver_all chunks' this' w'
  end.

(** [ioService] takes the oldest started operation of the port and runs its
    handler.  [None]: nothing has been started, or [res] is not a way the
    operation can end. *)
Definition run_one (res : io_result) (this : SerialPort) (w : World)
  : option (SerialPort * World) :=
  let p := m_port this in
  match Asio.sp_pending p with
  | [] => None
  | op :: rest =>
      let this1 :=
        set_port (Asio.mkPort (Asio.sp_device p) (Asio.sp_open p) (Asio.sp_settings p) rest) this in
      match Asio.op_fate op, res, Asio.op_kind_of op with
      | Some ec, _, _ => Some (doRead (Some ec) 0 this1 w)
      | None, Failed ec, _ => Some (doRead (Some ec) 0 this1 w)
      | None, Written n, Asio.async_write_some =>
          let n := Nat.min n (Z.to_nat (Asio.op_size op)) in
          Some (doRead None n this1 (emit (firstn n (m_rxbuffer this)) w))
      | None, Received bs, Asio.async_read_some =>
          let bs := firstn (Z.to_nat (Asio.op_size op)) bs in
          Some (deliver bs this1 w)
      | None, _, _ => None
      end
  end.

(* ===================================================================== *)
(** ** Primitives *)

Import Host.

(** The object a primitive is called on: its identity and its first slot,
    which holds the [SerialPort*] once a port has been opened. *)
Record PyrObject := mkObject {
  obj_id : nat;
  slot0 : option SerialPort     (* None: the slot holds no pointer *)
}.

Definition getSerialPort (self : PyrObject) : option SerialPort := slot0 self.

Definition asParityType (i : Z) : Asio.parity_type :=
  match i with
  | 0 => Asio.parity_none
  | 1 => Asio.parity_even
  | 2 => Asio.parity_odd
  | _ => Asio.parity_none   (* with a warning on stdout *)
  end.

(** [args + k]. *)
Definition arg (args : list PyrSlot) (k : nat) : PyrSlot := nth k args SlotNil.

(** What a primitive leaves behind: its error code, the object, and the
    content of the receiver's stack slot, which carries the answer. *)
Definition prim_result : Type := errcode * PyrObject * PyrSlot.

Definition receiver (self : PyrObject) : PyrSlot := SlotObject (obj_id self).

Section Primitives.
Variable dev : Asio.Device.

(** The line [printf("portName %s\n", portName)], which goes to stdout before
    the result of [slotStrVal] is looked at, is left out. *)
Definition prSerialPort_Open (mem : Storage) (self : PyrObject) (args : list PyrSlot)
  : M prim_result :=
  match getSerialPort self with
  | Some _ => ret (errFailed, self, receiver self)
  | None =>
  match slotStrVal (arg args 1) PATH_MAX with
  | inl err => ret (err, self, receiver self)
  | inr portName =>
  let exclusive := IsTrue (arg args 2) in
  match slotIntVal (arg args 3) with
  | inl err => ret (err, self, receiver self)
  | inr baudrate =>
  match slotIntVal (arg args 4) with
  | inl err => ret (err, self, receiver self)
  | inr charsize =>
  charsize' <- Asio.make_character_size (to_unsigned charsize) ;;
  let stop_bits := if IsTrue (arg args 5) then Asio.stop_bits_two else Asio.stop_bits_one in
  match slotIntVal (arg args 6) with
  | inl err => ret (err, self, receiver self)
  | inr parity =>
  let crtscts := IsTrue (arg args 7) in
  let flow_control :=
    if IsTrue (arg args 8) then Asio.flow_software else Asio.flow_hardware in
  let options :=
    mkOptions exclusive (to_unsigned baudrate) charsize' stop_bits
              (asParityType parity) crtscts flow_control in
  try_catch
    (port <- SerialPort_ctor dev mem (Some (obj_id self)) portName options ;;
     ret (errNone, mkObject (obj_id self) (Some port), receiver self))
    (fun e =>
       effect (post ("SerialPort Error: " ++ what e)%string) ;;;
       ret (errFailed, self, receiver self))
  end end end end end.

Definition prSerialPort_Close (self : PyrObject) : M prim_result :=
  match getSerialPort self with
  | None => ret (errFailed, self, receiver self)
  | Some port =>
      port' <- stop port ;;
      ret (errNone, mkObject (obj_id self) (Some port'), receiver self)
  end.

Definition prSerialPort_Cleanup (self : PyrObject) : M prim_result :=
  match getSerialPort self with
  | None => ret (errFailed, self, receiver self)
  | Some port =>
      SerialPort_dtor port ;;;
      ret (errNone, mkObject (obj_id self) None, receiver self)
  end.

Definition prSerialPort_Next (self : PyrObject) : M prim_result :=
  match getSerialPort self with
  | None => ret (errFailed, self, receiver self)
  | Some port =>
      match get port with
      | (Some byte, port') => ret (errNone, mkObject (obj_id self) (Some port'), SlotInt byte)
      | (None, port') => ret (errNone, mkObject (obj_id self) (Some port'), SlotNil)
      end
  end.

Definition prSerialPort_Put (self : PyrObject) (src : PyrSlot) : M prim_result :=
  match getSerialPort self with
  | None => ret (errFailed, self, receiver self)
  | Some port =>
      match (if IsChar src then inr (slotRawChar src) else slotIntVal src) with
      | inl err => ret (err, self, receiver self)
      | inr val =>
          res <- put dev (to_uint8 (Z.land val 255)) port ;;
          ret (errNone, self, SetBool res)
      end
  end.

Definition prSerialPort_RXErrors (self : PyrObject) : M prim_result :=
  match getSerialPort self with
  | None => ret (errFailed, self, receiver self)
  | Some port =>
      let (res, port') := rxErrors port in
      ret (errNone, mkObject (obj_id self) (Some port'), SlotInt res)
  end.

End Primitives.

(* ===================================================================== *)
(** ** Repeated calls *)

(** [n] calls of [get] in a row, with their answers. *)
Fixpoint get_n (n : nat) (this : SerialPort) : list (option Z) * SerialPort :=
  match n with
  | O => ([], this)
  | S n' =>
      let (r, this') := get this in
      let (rs, this'') := get_n n' this' in
      (r :: rs, this'')
  end.

(** [n] calls of the primitive [_SerialPort_Next] in a row; each call
    contributes its error code and its answer. *)
Fixpoint next_n (n : nat) (self : PyrObject) : M (list (errcode * PyrSlot) * PyrObject) :=
  match n with
  | O => ret ([], self)
  | S n' =>
      r <- prSerialPort_Next self ;;
      let '(err, self', answer) := r in
      rest <- next_n n' self' ;;
      ret ((err, answer) :: fst rest, snd rest)
  end.

(** The stored port with the two flags that the constructor leaves alone
    blanked out, for comparing the effect of two [Open] calls. *)
Definition forget_flags_options (o : Options) : Options :=
  mkOptions false (baudrate o) (charsize o) (stop_bits o) (parity o) false (flow_control o).

Definition forget_flags_port (this : SerialPort) : SerialPort :=
  mkSerialPort (m_obj this) (m_port this) (forget_flags_options (m_options this))
               (m_rxErrors this) (m_rxfifo this) (m_rxbuffer this).

Definition forget_flags (r : outcome prim_result * World) : outcome prim_result * World :=
  match r with
  | (Ok (err, self, answer), w) =>
      (Ok (err, mkObject (obj_id self) (option_map forget_flags_port (slot0 self)), answer), w)
  | _ => r
  end.

(** The settings that reached the device handle of the port an [Open] call
    stored, if it stored one. *)
Definition device_configuration (r : outcome prim_result * World)
  : option (list Asio.setting) :=
  match r with
  | (Ok (_, self, _), _) =>
      option_map (fun port => Asio.sp_settings (m_port port)) (slot0 self)
  | _ => None
  end.

(** The argument frame of [_SerialPort_Open]: the receiver and the
    [kNumOptions + 1] values pushed after it. *)
Definition open_frame (self : PyrObject) (path : string) (exclusive : bool)
           (baudrate charsize : Z) (two_stop_bits : bool) (parity : Z)
           (crtscts xonxoff : bool) : list PyrSlot :=
  [ receiver self; SlotString path; SetBool exclusive; SlotInt baudrate;
    SlotInt charsize; SetBool two_stop_bits; SlotInt parity;
    SetBool crtscts; SetBool xonxoff ].

(* ===================================================================== *)
(** ** Sample devices, storage and runs *)

Module Samples.

(** Every path opens, every setting is taken, every byte is accepted. *)
Definition good_device : Asio.Device :=
  Asio.mkDevice (fun _ => None) (fun _ _ => None)
                (fun _ _ buf => Asio.Accepted (length buf)).

(** No path opens. *)
Definition absent_device : Asio.Device :=
  Asio.mkDevice (fun _ => Some no_such_file_or_directory) (fun _ _ => None)
                (fun _ _ buf => Asio.Accepted (length buf)).

(** A line that only runs at 9600 baud. *)
Definition fixed_rate_device : Asio.Device :=
  Asio.mkDevice (fun _ => None)
                (fun _ o => match o with
                            | Asio.baud_rate 9600 => None
                            | Asio.baud_rate _ => Some invalid_argument
                            | _ => None
                            end)
                (fun _ _ buf => Asio.Accepted (length buf)).

Definition world0 : World := mkWorld 0 [] [] [].

Definition zeroes : list Z := repeat 0 (Z.to_nat kBufferSize).

(** Storage that happens to be zero-filled, and storage that is not. *)
Definition clean_storage : Storage := mkStorage (0, 0) zeroes.
Definition stale_storage : Storage := mkStorage (0, 7) zeroes.

(** Storage whose scratch area starts with 7, 8, 9. *)
Definition scratch_storage : Storage := mkStorage (0, 0) (deposit [7; 8; 9] zeroes).

Definition object0 : PyrObject := mkObject 1 None.

Definition holding (port : SerialPort) : PyrObject := mkObject 1 (Some port).

(** An open port with nothing started and nothing buffered, and the world
    it lives in. *)
Definition options0 : Options :=
  mkOptions false 9600 8 Asio.stop_bits_one Asio.parity_none false Asio.flow_hardware.
Definition port_on (mem : Storage) : SerialPort :=
  mkSerialPort (Some 1%nat)
               (Asio.mkPort "/dev/ttyUSB0" true (applied_options options0) [])
               options0 (raw_rxErrors mem) [] (raw_rxbuffer mem).
Definition port0 : SerialPort := port_on clean_storage.
Definition stale_port : SerialPort := port_on stale_storage.
Definition world1 : World := mkWorld 1 [] [] [].

(** 8193 bytes in two chunks: one more than the queue can hold. *)
Definition flood : list (list Z) := [repeat 65 (Z.to_nat kBufferSize); [66]].

Definition frame0 : list PyrSlot :=
  open_frame object0 "/dev/ttyUSB0" false 9600 8 false 0 false false.

(** The port, and the world, after [Open] on the good device. *)
Definition opened (mem : Storage) : option (SerialPort * World) :=
  match prSerialPort_Open good_device mem object0 frame0 world0 with
  | (Ok (_, self, _), w) => option_map (fun port => (port, w)) (slot0 self)
  | _ => None
  end.

Definition after_stop (pw : SerialPort * World) : option (SerialPort * World) :=
  match stop (fst pw) (snd pw) with
  | (Ok port, w) => Some (port, w)
  | _ => None
  end.

Definition bind_opt {A B} (o : option A) (f : A -> option B) : option B :=
  match o with Some a => f a | None => None end.

(** A freshly opened port on which the loop was armed by a call of
    [startRead]; its scratch buffer starts with 7, 8, 9. *)
Definition armed : SerialPort := startRead (port_on scratch_storage).

(** The armed port after one completion of three bytes, then stopped. *)
Definition stopped_with_data : option (SerialPort * World) :=
  bind_opt (run_one (Written 3) armed world1) after_stop.


(** What a completion leaves on the line and in the queue. *)
Definition line_and_queue (o : option (SerialPort * World)) : option (list Z * list Z) :=
  option_map (fun pw => (line_out (snd pw), m_rxfifo (fst pw))) o.

(** [port0] with the given operations pending on a closed handle. *)
Definition closed_port (pending : list Asio.async_op) : SerialPort :=
  set_port (Asio.mkPort "/dev/ttyUSB0" false (applied_options options0) pending) port0.

Definition cancelled_op : Asio.async_op :=
  Asio.mkOp Asio.async_write_some kBufferSize (Some operation_aborted).

(** A stopped port with three bytes waiting in its queue. *)
Definition stopped_port : SerialPort :=
  set_rx (0, 0) [65; 66; 67] (closed_port [cancelled_op]).

(** The same port without the back-reference to its object. *)
Definition orphan (port : SerialPort) : SerialPort :=
  mkSerialPort None (m_port port) (m_options port) (m_rxErrors port) (m_rxfifo port)
               (m_rxbuffer port).

(** A device that takes no byte. *)
Definition stalled_device : Asio.Device :=
  Asio.mkDevice (fun _ => None) (fun _ _ => None) (fun _ _ _ => Asio.Accepted 0).

End Samples.

(* ===================================================================== *)
(** ** Auxiliary notions for the proofs *)

(** The bytes [doRead]'s loop looks at: [m_rxbuffer[index]] for [count]
    consecutive indices. *)
Definition window (rxbuffer : list Z) (index count : nat) : list Z :=
  map (fun i => nth i rxbuffer 0) (seq index count).

(** Pushing a list of bytes one after the other, counting the refusals. *)
Fixpoint push_all (bs : list Z) (fifo : FIFO) (errors1 : Z) : FIFO * Z :=
  match bs with
  | [] => (fifo, errors1)
  | b :: bs' =>
      let (ok, fifo') := spsc_queue.push kBufferSize b fifo in
      push_all bs' fifo' (if ok then errors1 else wrap_int (errors1 + 1))
  end.

(** Free places in the queue. *)
Definition room (fifo : FIFO) : nat := Z.to_nat (kBufferSize - Z.of_nat (length fifo)).

(** The number of bytes in a run of chunks. *)
Definition arrived (chunks : list (list Z)) : Z := Z.of_nat (length (concat chunks)).

(** The error of the first setting in a list that the device refuses. *)
Fixpoint first_refusal (dev : Asio.Device) (device : string) (settings : list Asio.setting)
  : option errc :=
  match settings with
  | [] => None
  | o :: settings' =>
      match Asio.dev_set dev device o with
      | Some ec => Some ec
      | None => first_refusal dev device settings'
      end
  end.

(** The port a successful construction produces. *)
Definition constructed (mem : Storage) (obj : option nat) (serialport : string)
           (options : Options) : SerialPort :=
  mkSerialPort obj (Asio.mkPort serialport true (applied_options options) [])
               options (raw_rxErrors mem) spsc_queue.empty (raw_rxbuffer mem).

(** The options [_SerialPort_Open] builds from well-typed arguments. *)
Definition parsed_options (exclusive : bool) (baudrate charsize : Z) (two_stop_bits : bool)
           (parity : Z) (crtscts xonxoff : bool) : Options :=
  mkOptions exclusive (to_unsigned baudrate) (to_unsigned charsize)
            (if two_stop_bits then Asio.stop_bits_two else Asio.stop_bits_one)
            (asParityType parity) crtscts
            (if xonxoff then Asio.flow_software else Asio.flow_hardware).

(** The device name [_SerialPort_Open] passes on: the path cut to the
    buffer it is copied into. *)
Definition port_name (path : string) : string :=
  String.substring 0 (Z.to_nat (PATH_MAX - 1)) path.

(* ===================================================================== *)
(** ** Whole runs *)

(** What can happen to the object of one port: the interpreter calls one of
    the six primitives, or [ioService] runs a completion handler. *)
Inductive request :=
| ReqOpen (mem : Storage) (args : list PyrSlot)
| ReqClose
| ReqCleanup
| ReqNext
| ReqPut (src : PyrSlot)
| ReqRXErrors
| ReqPoll (res : io_result).

(** One request.  A poll finds a handler to run only when the object holds a
    port on which an operation has been started; handlers of operations that
    were still outstanding when [Cleanup] deleted the port are out of its
    reach. *)
Definition serve (dev : Asio.Device) (r : request) (self : PyrObject) : M prim_result :=
  match r with
  | ReqOpen mem args => prSerialPort_Open dev mem self args
  | ReqClose => prSerialPort_Close self
  | ReqCleanup => prSerialPort_Cleanup self
  | ReqNext => prSerialPort_Next self
  | ReqPut src => prSerialPort_Put dev self src
  | ReqRXErrors => prSerialPort_RXErrors self
  | ReqPoll res =>
      fun w =>
        match getSerialPort self with
        | Some port =>
            match run_one res port w with
            | Some (port', w') =>
                (Ok (errNone, mkObject (obj_id self) (Some port'), receiver self), w')
            | None => (Ok (errNone, self, receiver self), w)
            end
        | None => (Ok (errNone, self, receiver self), w)
        end
  end.

(** A list of requests, served in order until one of them does not return;
    the error codes and answers are collected. *)
Fixpoint serve_all (dev : Asio.Device) (rs : list request) (self : PyrObject)
  : M (list (errcode * PyrSlot) * PyrObject) :=
  match rs with
  | [] => ret ([], self)
  | r :: rs' =>
      res <- serve dev r self ;;
      let '(err, self', answer) := res in
      rest <- serve_all dev rs' self' ;;
      ret ((err, answer) :: fst rest, snd rest)
  end.

(** An object whose port, if it holds one, has nothing started and nothing
    buffered. *)
Definition idle (self : PyrObject) : Prop :=
  match getSerialPort self with
  | Some port => Asio.sp_pending (m_port port) = [] /\ m_rxfifo port = []
  | None => True
  end.

(** The descriptors an object accounts for: one when it holds a port whose
    handle is open. *)
Definition held (self : PyrObject) : nat :=
  match getSerialPort self with
  | Some port => if Asio.sp_open (m_port port) then 1%nat else 0%nat
  | None => 0%nat
  end.

(** Handler runs in a row; the run ends early when nothing is pending. *)
Fixpoint run_many (rs : list io_result) (this : SerialPort) (w : World)
  : SerialPort * World :=
  match rs with
  | [] => (this, w)
  | r :: rs' =>
      match run_one r this w with
      | Some (this', w') => run_many rs' this' w'
      | None => (this, w)
      end
  end.

(** Deliveries and reads in any order. *)
Inductive rx_event :=
| Arrive (bs : list Z)     (* a completion hands over [bs] *)
| Take.                    (* one call of [get] *)

Fixpoint play (events : list rx_event) (this : SerialPort) (w : World)
  : list (option Z) * SerialPort * World :=
  match events with
  | [] => ([], this, w)
  | Arrive bs :: events' =>
      let (this', w') := deliver bs this w in
      play events' this' w'
  | Take :: events' =>
      let (answer, this') := get this in
      let '(answers, this'', w') := play events' this' w in
      (answer :: answers, this'', w')
  end.

(** The bytes among the answers of [get], and the bytes among the events. *)
Definition taken (answers : list (option Z)) : list Z :=
  flat_map (fun a => match a with Some b => [b] | None => [] end) answers.
Definition arrivals (events : list rx_event) : list Z :=
  flat_map (fun e => match e with Arrive bs => bs | Take => [] end) events.

(** No delivery of the run finds less room than it needs, for a queue that
    holds [len] bytes at the start. *)
Fixpoint never_overflows (events : list rx_event) (len : Z) : bool :=
  match events with
  | [] => true
  | Arrive bs :: events' =>
      (len + Z.of_nat (length bs) <=? kBufferSize) &&
      never_overflows events' (len + Z.of_nat (length bs))
  | Take :: events' => never_overflows events' (Z.max 0 (len - 1))
  end.

(** Of [n] bytes offered to a queue that holds [len], the number that do not
    fit. *)
Definition dropped (len n : Z) : Z := len + n - Z.min (len + n) kBufferSize.

(* ===================================================================== *)
(** * Properties *)

(** ** Integers *)

Lemma wrap_int_id z : is_int z -> wrap_int z = z.
Proof.
  unfold is_int, wrap_int; intros H.
  rewrite Z.mod_small; lia.
Qed.

Lemma wrap_int_range z : is_int (wrap_int z).
Proof.
  unfold is_int, wrap_int.
  pose proof (Z.mod_pos_bound (z + 2^31) (2^32) ltac:(lia)); lia.
Qed.

Lemma wrap_int_add_l a b : wrap_int (wrap_int a + b) = wrap_int (a + b).
Proof.
  unfold wrap_int. f_equal.
  replace ((a + 2^31) mod 2^32 - 2^31 + b + 2^31) with ((a + 2^31) mod 2^32 + b) by lia.
  rewrite Z.add_mod_idemp_l by lia. f_equal; lia.
Qed.

Lemma wrap_int_sub_diag a b : wrap_int (wrap_int (a + b) - a) = wrap_int b.
Proof.
  unfold wrap_int. f_equal.
  replace ((a + b + 2^31) mod 2^32 - 2^31 - a + 2^31) with ((a + b + 2^31) mod 2^32 - a) by lia.
  rewrite <- Zminus_mod_idemp_l.
  rewrite Z.mod_mod by lia.
  rewrite Zminus_mod_idemp_l. f_equal; lia.
Qed.

Lemma land_255 z : Z.land z 255 = z mod 256.
Proof. change 255 with (Z.ones 8). rewrite Z.land_ones by lia. reflexivity. Qed.

Lemma land_255_uint8 z : is_uint8 z -> Z.land z 255 = z.
Proof. intros H. rewrite land_255. apply Z.mod_small. exact H. Qed.

Lemma to_uint8_land z : to_uint8 (Z.land z 255) = z mod 256.
Proof. unfold to_uint8. rewrite land_255. apply Z.mod_mod. lia. Qed.

(** ** The queue *)

Lemma push_all_app bs cs fifo e :
  push_all (bs ++ cs) fifo e =
  let (fifo', e') := push_all bs fifo e in push_all cs fifo' e'.
Proof.
  revert fifo e. induction bs as [|b bs IH]; intros fifo e; simpl.
  - reflexivity.
  - destruct (spsc_queue.push kBufferSize b fifo) as [ok fifo']. apply IH.
Qed.

(** While there is room, every byte is stored and nothing is counted. *)
Lemma push_all_fits bs fifo e :
  Z.of_nat (length fifo) + Z.of_nat (length bs) <= kBufferSize ->
  push_all bs fifo e = (fifo ++ bs, e).
Proof.
  revert fifo e. induction bs as [|b bs IH]; intros fifo e H; simpl in *.
  - now rewrite app_nil_r.
  - unfold spsc_queue.push.
    destruct (Z.ltb_spec (Z.of_nat (length fifo)) kBufferSize) as [Hlt|Hge]; [|lia].
    rewrite IH.
    + now rewrite <- app_assoc.
    + rewrite length_app; simpl. lia.
Qed.

(** Once the queue is full, nothing is stored and every byte is counted. *)
Lemma push_all_full bs fifo e :
  kBufferSize <= Z.of_nat (length fifo) ->
  push_all bs fifo e = (fifo, wrap_int (e + Z.of_nat (length bs))) \/
  (bs = [] /\ push_all bs fifo e = (fifo, e)).
Proof.
  revert e. induction bs as [|b bs IH]; intros e H.
  - right. split; reflexivity.
  - left. simpl push_all. unfold spsc_queue.push.
    destruct (Z.ltb_spec (Z.of_nat (length fifo)) kBufferSize) as [Hlt|Hge]; [lia|].
    destruct (IH (wrap_int (e + 1)) H) as [-> | [-> ->]].
    + f_equal. rewrite wrap_int_add_l. f_equal. simpl length. lia.
    + f_equal.
Qed.

(** In general the first [room] bytes are stored and the others counted. *)
Lemma push_all_split bs fifo e :
  Z.of_nat (length fifo) <= kBufferSize ->
  exists e',
    push_all bs fifo e = (fifo ++ firstn (room fifo) bs, e') /\
    wrap_int e' = wrap_int (e + Z.of_nat (length bs - room fifo)).
Proof.
  intros Hlen.
  replace (push_all bs fifo e)
    with (push_all (firstn (room fifo) bs ++ skipn (room fifo) bs) fifo e)
    by now rewrite firstn_skipn.
  rewrite push_all_app.
  rewrite push_all_fits.
  2:{ rewrite length_firstn. unfold room. lia. }
  destruct (Nat.le_gt_cases (length bs) (room fifo)) as [Hle|Hgt].
  - rewrite skipn_all2 by exact Hle. simpl.
    exists e. split; [reflexivity|].
    replace (length bs - room fifo)%nat with 0%nat by lia.
    f_equal; lia.
  - destruct (push_all_full (skipn (room fifo) bs) (fifo ++ firstn (room fifo) bs) e)
      as [Heq | [Hnil _]].
    + rewrite length_app, length_firstn. unfold room in *. lia.
    + rewrite Heq. eexists. split; [reflexivity|].
      rewrite length_skipn.
      pose proof (wrap_int_range (e + Z.of_nat (length bs - room fifo))) as Hr.
      now rewrite (wrap_int_id _ Hr).
    + apply (f_equal (@length Z)) in Hnil. rewrite length_skipn in Hnil. simpl in Hnil. lia.
Qed.

(** ** The handler's loop *)

Lemma doRead_loop_push_all rxbuffer count : forall index fifo e,
  doRead_loop rxbuffer index count fifo e = push_all (window rxbuffer index count) fifo e.
Proof.
  induction count as [|count IH]; intros index fifo e; simpl.
  - reflexivity.
  - destruct (spsc_queue.push kBufferSize (nth index rxbuffer 0) fifo) as [ok fifo'].
    apply IH.
Qed.

Lemma window_middle bs rest : forall pre,
  window (pre ++ bs ++ rest) (length pre) (length bs) = bs.
Proof.
  unfold window.
  induction bs as [|b bs IH]; intros pre; simpl.
  - reflexivity.
  - rewrite nth_middle. f_equal.
    specialize (IH (pre ++ [b])).
    rewrite <- app_assoc, length_app in IH. simpl in IH.
    rewrite Nat.add_1_r in IH. exact IH.
Qed.

Lemma window_app_prefix bs rest : window (bs ++ rest) 0 (length bs) = bs.
Proof. exact (window_middle bs rest []). Qed.

Lemma window_deposit bs buffer : window (deposit bs buffer) 0 (length bs) = bs.
Proof. apply window_app_prefix. Qed.

(** What one delivery does to the port: the chunk goes through [push_all],
    one more operation is started, the world hears of it when the port has
    an owner. *)
Lemma deliver_unfold bs this w :
  deliver bs this w =
  let (fifo, e1) := push_all bs (m_rxfifo this) (snd (m_rxErrors this)) in
  let this' :=
    set_rx (fst (m_rxErrors this), e1) fifo
           (set_rxbuffer (deposit bs (m_rxbuffer this)) this) in
  (startRead this', dataAvailable this' w).
Proof.
  unfold deliver, doRead.
  cbn [m_rxbuffer m_rxfifo m_rxErrors set_rxbuffer].
  rewrite doRead_loop_push_all, window_deposit.
  reflexivity.
Qed.

Lemma deliver_fifo bs this w :
  Z.of_nat (length (m_rxfifo this)) <= kBufferSize ->
  let this' := fst (deliver bs this w) in
  m_rxfifo this' = m_rxfifo this ++ firstn (room (m_rxfifo this)) bs /\
  fst (m_rxErrors this') = fst (m_rxErrors this) /\
  wrap_int (snd (m_rxErrors this')) =
  wrap_int (snd (m_rxErrors this) + Z.of_nat (length bs - room (m_rxfifo this))).
Proof.
  intros Hlen. rewrite deliver_unfold.
  destruct (push_all_split bs (m_rxfifo this) (snd (m_rxErrors this)) Hlen)
    as (e' & Hpush & He').
  rewrite Hpush. cbn. auto.
Qed.

Lemma deliver_fits bs this w :
  Z.of_nat (length (m_rxfifo this)) + Z.of_nat (length bs) <= kBufferSize ->
  let this' := fst (deliver bs this w) in
  m_rxfifo this' = m_rxfifo this ++ bs /\ m_rxErrors this' = m_rxErrors this.
Proof.
  intros Hlen. rewrite deliver_unfold, push_all_fits by exact Hlen.
  cbn. split; [reflexivity|]. now destruct (m_rxErrors this).
Qed.

Lemma deliver_all_fits chunks : forall this w,
  Z.of_nat (length (m_rxfifo this)) + arrived chunks <= kBufferSize ->
  let this' := fst (deliver_all chunks this w) in
  m_rxfifo this' = m_rxfifo this ++ concat chunks /\ m_rxErrors this' = m_rxErrors this.
Proof.
  unfold arrived.
  induction chunks as [|bs chunks IH]; intros this w Hlen; simpl in *.
  - now rewrite app_nil_r.
  - rewrite length_app in Hlen.
    destruct (deliver bs this w) as [this1 w1] eqn:Hd.
    pose proof (deliver_fits bs this w ltac:(lia)) as [Hq He].
    rewrite Hd in Hq, He. simpl in Hq, He.
    destruct (IH this1 w1) as [Hq' He'].
    + rewrite Hq, length_app. lia.
    + rewrite Hq', He', Hq, He. now rewrite <- app_assoc.
Qed.

(** The queue never holds more than its capacity. *)
Lemma deliver_bounded bs this w :
  Z.of_nat (length (m_rxfifo this)) <= kBufferSize ->
  Z.of_nat (length (m_rxfifo (fst (deliver bs this w)))) <= kBufferSize.
Proof.
  intros Hlen. destruct (deliver_fifo bs this w Hlen) as (Hq & _).
  rewrite Hq, length_app, length_firstn. unfold room. lia.
Qed.

(** ** Draining *)

Lemma get_n_drains l : forall k this,
  m_rxfifo this = l ->
  Forall is_uint8 l ->
  get_n (length l + k) this =
  (map Some l ++ repeat None k, set_rx (m_rxErrors this) [] this).
Proof.
  induction l as [|x l IH]; intros k this Hq Hbytes.
  - simpl. induction k as [|k IHk]; simpl.
    + f_equal. destruct this; simpl in *; now subst.
    + unfold get at 1. rewrite Hq. simpl. rewrite IHk. reflexivity.
  - simpl. unfold get at 1. rewrite Hq. simpl.
    inversion Hbytes as [|? ? Hx Hl]; subst.
    rewrite (IH k (set_rx (m_rxErrors this) l this) eq_refl Hl).
    rewrite land_255_uint8 by exact Hx. reflexivity.
Qed.

(** ** Order of delivery *)

(** C7.  Bytes handed over by any number of successful completions, none of
    which finds the queue too full, come out of [get] in the order in which
    they were handed over (behind whatever was already waiting); once they
    are out, [get] answers "nothing".  Nothing is counted as an error. *)
Theorem fifo_order_preserved (chunks : list (list Z)) (this : SerialPort) (w : World) (k : nat) :
  Forall is_uint8 (m_rxfifo this) ->
  Forall (Forall is_uint8) chunks ->
  Z.of_nat (length (m_rxfifo this)) + arrived chunks <= kBufferSize ->
  let this' := fst (deliver_all chunks this w) in
  let enqueued := m_rxfifo this ++ concat chunks in
  fst (get_n (length enqueued + k) this') = map Some enqueued ++ repeat None k /\
  m_rxErrors this' = m_rxErrors this.
Proof.
  intros Hq Hchunks Hroom this' enqueued.
  destruct (deliver_all_fits chunks this w Hroom) as [Hfifo Herr].
  fold this' in Hfifo, Herr.
  split; [|exact Herr].
  rewrite (get_n_drains enqueued k this' Hfifo).
  - reflexivity.
  - apply Forall_app. split; [exact Hq|].
    clear -Hchunks. induction Hchunks as [|bs chunks Hbs _ IH]; simpl.
    + constructor.
    + apply Forall_app. now split.
Qed.

Lemma fifo_order_preserved_witness :
  Forall is_uint8 (m_rxfifo Samples.port0) /\
  Forall (Forall is_uint8) [[65; 66]; [67]] /\
  Z.of_nat (length (m_rxfifo Samples.port0)) + arrived [[65; 66]; [67]] <= kBufferSize /\
  fst (get_n 4 (fst (deliver_all [[65; 66]; [67]] Samples.port0 Samples.world1)))
  = [Some 65; Some 66; Some 67; None].
Proof.
  assert (H1 : Forall is_uint8 (m_rxfifo Samples.port0)) by constructor.
  assert (H2 : Forall (Forall is_uint8) [[65; 66]; [67]])
    by (repeat constructor; unfold is_uint8; lia).
  assert (H3 : Z.of_nat (length (m_rxfifo Samples.port0)) + arrived [[65; 66]; [67]]
               <= kBufferSize) by (vm_compute; discriminate).
  split; [exact H1|]. split; [exact H2|]. split; [exact H3|].
  exact (proj1 (fifo_order_preserved [[65; 66]; [67]] Samples.port0 Samples.world1 1 H1 H2 H3)).
Defined.

(** ** Counting what did not fit *)

(** After a run of deliveries the queue holds what fitted and
    [m_rxErrors[1]] has advanced by the number of bytes that did not. *)
Lemma deliver_all_count chunks : forall this w,
  Z.of_nat (length (m_rxfifo this)) <= kBufferSize ->
  let this' := fst (deliver_all chunks this w) in
  let offered := Z.of_nat (length (m_rxfifo this)) + arrived chunks in
  Z.of_nat (length (m_rxfifo this')) = Z.min offered kBufferSize /\
  fst (m_rxErrors this') = fst (m_rxErrors this) /\
  wrap_int (snd (m_rxErrors this')) =
  wrap_int (snd (m_rxErrors this) + (offered - Z.min offered kBufferSize)).
Proof.
  unfold arrived.
  induction chunks as [|bs chunks IH]; intros this w Hlen; simpl.
  - repeat split; try lia. f_equal. lia.
  - destruct (deliver bs this w) as [this1 w1] eqn:Hd.
    pose proof (deliver_fifo bs this w Hlen) as (Hq & H0 & H1).
    pose proof (deliver_bounded bs this w Hlen) as Hb.
    rewrite Hd in Hq, H0, H1, Hb. simpl in Hq, H0, H1, Hb.
    destruct (IH this1 w1 Hb) as (Hq' & H0' & H1').
    assert (Hlen1 : Z.of_nat (length (m_rxfifo this1)) =
                    Z.min (Z.of_nat (length (m_rxfifo this)) + Z.of_nat (length bs)) kBufferSize).
    { rewrite Hq, length_app, length_firstn. unfold room. lia. }
    rewrite length_app.
    split; [|split].
    + rewrite Hq'. lia.
    + congruence.
    + rewrite H1'. rewrite <- wrap_int_add_l, H1, wrap_int_add_l.
      f_equal. unfold room. lia.
Qed.

Lemma deliver_all_errors_int chunks : forall this w,
  is_int (snd (m_rxErrors this)) ->
  is_int (snd (m_rxErrors (fst (deliver_all chunks this w)))).
Proof.
  induction chunks as [|bs chunks IH]; intros this w He; simpl.
  - exact He.
  - destruct (deliver bs this w) as [this1 w1] eqn:Hd.
    apply IH.
    assert (H : this1 = fst (deliver bs this w)) by now rewrite Hd.
    rewrite H, deliver_unfold.
    destruct (push_all bs (m_rxfifo this) (snd (m_rxErrors this))) as [fifo e1] eqn:Hp.
    cbn.
    clear -He Hp. revert Hp He. generalize (m_rxfifo this) (snd (m_rxErrors this)).
    induction bs as [|b bs IHbs]; intros q e Hp He; simpl in Hp.
    + now inversion Hp; subst.
    + destruct (spsc_queue.push kBufferSize b q) as [[|] q'].
      * eapply IHbs; eauto.
      * eapply IHbs; eauto. apply wrap_int_range.
Qed.

(** A second query right after a first one answers 0. *)
Lemma rxErrors_again this : fst (rxErrors (snd (rxErrors this))) = 0.
Proof. unfold rxErrors; cbn. rewrite Z.sub_diag. reflexivity. Qed.

(** What the first query after an overflowing run answers, for a port whose
    queue was empty at the start: the number of bytes beyond the capacity,
    shifted by the difference the two counters started with. *)
Lemma rxErrors_after_overflow chunks this w :
  m_rxfifo this = [] ->
  kBufferSize < arrived chunks ->
  let this' := fst (deliver_all chunks this w) in
  let e0 := fst (m_rxErrors this) in
  let e1 := snd (m_rxErrors this) in
  wrap_int (snd (m_rxErrors this')) = wrap_int (e1 + (arrived chunks - kBufferSize)) /\
  fst (rxErrors this') = wrap_int (e1 - e0 + (arrived chunks - kBufferSize)).
Proof.
  intros Hempty Hmany this' e0 e1.
  destruct (deliver_all_count chunks this w) as (_ & H0 & H1).
  { rewrite Hempty. simpl. unfold kBufferSize. lia. }
  fold this' in H0, H1. rewrite Hempty in H1. simpl in H1.
  rewrite Z.min_r in H1 by lia.
  split; [exact H1|].
  unfold rxErrors. cbn. rewrite H0.
  replace (snd (m_rxErrors this') - fst (m_rxErrors this))
    with (snd (m_rxErrors this') + - fst (m_rxErrors this)) by lia.
  rewrite <- wrap_int_add_l, H1, wrap_int_add_l.
  f_equal. subst e0 e1. lia.
Qed.

(** When the two counters start out equal, as they do after any query, and
    the excess fits an [int], the answer is the excess itself. *)
Lemma rxErrors_after_overflow_balanced chunks this w :
  m_rxfifo this = [] ->
  fst (m_rxErrors this) = snd (m_rxErrors this) ->
  kBufferSize < arrived chunks ->
  arrived chunks - kBufferSize < 2^31 ->
  fst (rxErrors (fst (deliver_all chunks this w))) = arrived chunks - kBufferSize.
Proof.
  intros Hempty Heq Hmany Hfits.
  destruct (rxErrors_after_overflow chunks this w Hempty Hmany) as [_ ->].
  rewrite Heq, Z.sub_diag. apply wrap_int_id. unfold is_int. simpl. lia.
Qed.

(** C6.  An overflowing run on a port whose storage was not zero-filled when
    [new] handed it out ([m_rxErrors] = {0, 7}): [Open] succeeds, 8193 bytes
    are delivered before any [get], so exactly one byte does not fit and
    [m_rxErrors[1]] advances by one; the first [rxErrors] answers 8 where
    [arrived - 8192] is 1, and the second answers 0. *)
Theorem rxErrors_on_stale_storage :
  Samples.opened Samples.stale_storage = Some (Samples.stale_port, Samples.world1) /\
  m_rxErrors Samples.stale_port = (0, 7) /\
  arrived Samples.flood - kBufferSize = 1 /\
  let port' := fst (deliver_all Samples.flood Samples.stale_port Samples.world1) in
  snd (m_rxErrors port') = 8 /\
  fst (rxErrors port') = 8 /\
  fst (rxErrors (snd (rxErrors port'))) = 0.
Proof.
  set (port := Samples.stale_port).
  assert (Hflood : arrived Samples.flood = 8193) by (vm_compute; reflexivity).
  split; [vm_compute; reflexivity|].
  split; [reflexivity|].
  split; [rewrite Hflood; reflexivity|].
  intros port'.
  destruct (rxErrors_after_overflow Samples.flood port Samples.world1) as [H1 H2].
  { reflexivity. }
  { rewrite Hflood. reflexivity. }
  fold port' in H1, H2. rewrite Hflood in H1, H2.
  split; [|split].
  - rewrite <- (wrap_int_id (snd (m_rxErrors port'))).
    + rewrite H1. reflexivity.
    + apply deliver_all_errors_int. change (is_int 7). unfold is_int. lia.
  - rewrite H2. reflexivity.
  - apply rxErrors_again.
Qed.

(** The same run on storage that happened to be zero-filled answers 1. *)
Example rxErrors_on_clean_storage :
  fst (rxErrors (fst (deliver_all Samples.flood Samples.port0 Samples.world1))) = 1.
Proof.
  rewrite rxErrors_after_overflow_balanced; try reflexivity.
Qed.

(** ** Construction *)

Lemma with_fds_pred_S w : with_fds pred (with_fds S w) = w.
Proof. destruct w; reflexivity. Qed.

(** The constructor in closed form: it throws from "open" when the device
    does not open, from "set_option" at the first setting that is refused,
    in both cases holding no descriptor afterwards, and otherwise yields
    [constructed] with one more descriptor open. *)
Lemma SerialPort_ctor_closed_form dev mem obj serialport options w :
  SerialPort_ctor dev mem obj serialport options w =
  match Asio.dev_open dev serialport with
  | Some ec => (Throw (system_error ec "open"), w)
  | None =>
      match first_refusal dev serialport (applied_options options) with
      | Some ec => (Throw (system_error ec "set_option"), w)
      | None => (Ok (constructed mem obj serialport options), with_fds S w)
      end
  end.
Proof.
  unfold SerialPort_ctor, Asio.open, bind, on_unwind, effect, ret, throw.
  destruct (Asio.dev_open dev serialport) as [ec|]; [reflexivity|].
  unfold applied_options, first_refusal, Asio.set_option, Asio.destroy, throw, ret; cbn.
  repeat match goal with
         | |- context [Asio.dev_set dev serialport ?o] =>
             destruct (Asio.dev_set dev serialport o); cbn;
             [now rewrite with_fds_pred_S|]
         end.
  reflexivity.
Qed.

Lemma first_refusal_some dev device settings :
  (exists o, In o settings /\ Asio.dev_set dev device o <> None) ->
  exists ec, first_refusal dev device settings = Some ec.
Proof.
  intros (o & Hin & Hset).
  induction settings as [|o' settings IH]; simpl in *.
  - contradiction.
  - destruct (Asio.dev_set dev device o') as [ec|] eqn:Ho'.
    + now exists ec.
    + destruct Hin as [->|Hin]; [congruence|]. now apply IH.
Qed.

Lemma IsTrue_SetBool b : IsTrue (SetBool b) = b.
Proof. now destruct b. Qed.

(** [_SerialPort_Open] on a well-typed frame, for an object that holds no
    port yet and a character size the option class accepts: the constructor
    runs inside the [try] block. *)
Lemma prSerialPort_Open_on_frame dev mem self path excl baud cs two par crts xon w :
  getSerialPort self = None ->
  5 <= cs <= 8 ->
  prSerialPort_Open dev mem self (open_frame self path excl baud cs two par crts xon) w =
  try_catch
    (port <- SerialPort_ctor dev mem (Some (obj_id self)) (port_name path)
                             (parsed_options excl baud cs two par crts xon) ;;
     ret (errNone, mkObject (obj_id self) (Some port), receiver self))
    (fun e =>
       effect (post ("SerialPort Error: " ++ what e)%string) ;;;
       ret (errFailed, self, receiver self)) w.
Proof.
  intros Hself Hcs.
  unfold prSerialPort_Open, open_frame, arg. rewrite Hself. cbn [nth slotStrVal slotIntVal].
  rewrite !IsTrue_SetBool.
  assert (Hu : to_unsigned cs = cs) by (unfold to_unsigned; apply Z.mod_small; lia).
  assert (H5 : (cs <? 5) = false) by (apply Z.ltb_ge; lia).
  assert (H8 : (8 <? cs) = false) by (apply Z.ltb_ge; lia).
  unfold Asio.make_character_size, parsed_options, port_name.
  rewrite Hu, H5, H8. reflexivity.
Qed.

(** ** Open *)

(** Case analysis on the outcome of the constructor inside the [try] block
    of [_SerialPort_Open]. *)
Ltac ctor_cases dev serialport options :=
  unfold try_catch, bind, effect, ret;
  rewrite ?SerialPort_ctor_closed_form;
  destruct (Asio.dev_open dev serialport) as [?ec|] eqn:?Hopen;
  [| destruct (first_refusal dev serialport (applied_options options)) as [?ec|] eqn:?Hset ].

(** C8.  [Open] with a device path and a set of options, on an object that
    holds no port: when the device does not open, or one of the options
    that are applied is refused, the primitive returns [errFailed], has
    posted "SerialPort Error: " followed by the text of the exception, has
    left the object's slot without a port, and holds no more descriptors
    than before. *)
Theorem open_failure_is_atomic dev mem self path excl baud cs two par crts xon w :
  getSerialPort self = None ->
  5 <= cs <= 8 ->
  (Asio.dev_open dev (port_name path) <> None \/
   exists o, In o (applied_options (parsed_options excl baud cs two par crts xon)) /\
             Asio.dev_set dev (port_name path) o <> None) ->
  exists e w',
    prSerialPort_Open dev mem self (open_frame self path excl baud cs two par crts xon) w
    = (Ok (errFailed, self, receiver self), w') /\
    (exists ec, e = system_error ec "open" \/ e = system_error ec "set_option") /\
    posted w' = posted w ++ [("SerialPort Error: " ++ what e)%string] /\
    slot0 self = None /\
    open_fds w' = open_fds w /\
    line_out w' = line_out w /\
    interpreter_calls w' = interpreter_calls w.
Proof.
  intros Hself Hcs Hfail.
  rewrite (prSerialPort_Open_on_frame dev mem self path excl baud cs two par crts xon w Hself Hcs).
  ctor_cases dev (port_name path) (parsed_options excl baud cs two par crts xon).
  - exists (system_error ec "open"), (post ("SerialPort Error: " ++ what (system_error ec "open"))%string w).
    repeat split; eauto.
  - exists (system_error ec "set_option"),
           (post ("SerialPort Error: " ++ what (system_error ec "set_option"))%string w).
    repeat split; eauto.
  - exfalso. destruct Hfail as [Hfail | Hfail]; [congruence|].
    apply first_refusal_some in Hfail. destruct Hfail as [ec Hec]. congruence.
Qed.

Lemma open_failure_is_atomic_witness :
  getSerialPort Samples.object0 = None /\
  5 <= 8 <= 8 /\
  (Asio.dev_open Samples.fixed_rate_device (port_name "/dev/ttyUSB0") <> None \/
   exists o, In o (applied_options (parsed_options true 115200 8 false 0 false false)) /\
             Asio.dev_set Samples.fixed_rate_device (port_name "/dev/ttyUSB0") o <> None) /\
  exists e w',
    prSerialPort_Open Samples.fixed_rate_device Samples.clean_storage Samples.object0
      (open_frame Samples.object0 "/dev/ttyUSB0" true 115200 8 false 0 false false)
      Samples.world0
    = (Ok (errFailed, Samples.object0, receiver Samples.object0), w') /\
    (exists ec, e = system_error ec "open" \/ e = system_error ec "set_option") /\
    posted w' = posted Samples.world0 ++ [("SerialPort Error: " ++ what e)%string] /\
    slot0 Samples.object0 = None /\
    open_fds w' = open_fds Samples.world0 /\
    line_out w' = line_out Samples.world0 /\
    interpreter_calls w' = interpreter_calls Samples.world0.
Proof.
  assert (H1 : getSerialPort Samples.object0 = None) by reflexivity.
  assert (H2 : 5 <= 8 <= 8) by lia.
  assert (H3 : Asio.dev_open Samples.fixed_rate_device (port_name "/dev/ttyUSB0") <> None \/
               exists o, In o (applied_options (parsed_options true 115200 8 false 0 false false)) /\
                         Asio.dev_set Samples.fixed_rate_device (port_name "/dev/ttyUSB0") o <> None).
  { right. exists (Asio.baud_rate 115200). split; [left; reflexivity | discriminate]. }
  split; [exact H1|]. split; [exact H2|]. split; [exact H3|].
  exact (open_failure_is_atomic Samples.fixed_rate_device Samples.clean_storage Samples.object0
           "/dev/ttyUSB0" true 115200 8 false 0 false false Samples.world0 H1 H2 H3).
Defined.

(** On a machine without the device, [Open] fails in "open". *)
Example open_on_absent_device :
  prSerialPort_Open Samples.absent_device Samples.clean_storage Samples.object0 Samples.frame0
                    Samples.world0
  = (Ok (errFailed, Samples.object0, receiver Samples.object0),
     post "SerialPort Error: open: No such file or directory" Samples.world0).
Proof. reflexivity. Qed.

(** A character size that the option class cannot hold is refused before the
    [try] block is entered: [std::out_of_range] leaves the primitive, and
    nothing has been touched. *)
Lemma open_with_invalid_character_size dev mem self path excl baud cs two par crts xon w :
  getSerialPort self = None ->
  to_unsigned cs < 5 \/ 8 < to_unsigned cs ->
  prSerialPort_Open dev mem self (open_frame self path excl baud cs two par crts xon) w
  = (Throw (out_of_range "invalid character_size value"), w).
Proof.
  intros Hself Hcs.
  unfold prSerialPort_Open, open_frame, arg. rewrite Hself. cbn [nth slotStrVal slotIntVal].
  unfold Asio.make_character_size.
  assert (H : (to_unsigned cs <? 5) || (8 <? to_unsigned cs) = true).
  { apply orb_true_iff. destruct Hcs; [left|right]; now apply Z.ltb_lt. }
  rewrite H. reflexivity.
Qed.

(** C2.  Whenever [Open] returns [errNone], the object holds a port whose
    device handle is open and on which no asynchronous operation has been
    started: neither the constructor nor the primitive calls [startRead]. *)
Theorem open_starts_nothing dev mem self args w self' answer w' :
  prSerialPort_Open dev mem self args w = (Ok (errNone, self', answer), w') ->
  exists port,
    getSerialPort self' = Some port /\
    Asio.sp_open (m_port port) = true /\
    Asio.sp_pending (m_port port) = [].
Proof.
  unfold prSerialPort_Open.
  destruct (getSerialPort self); [discriminate|].
  destruct (arg args 1); try discriminate; cbn [slotStrVal].
  destruct (arg args 3); try discriminate; cbn [slotIntVal].
  destruct (arg args 4); try discriminate; cbn [slotIntVal].
  unfold Asio.make_character_size.
  destruct ((to_unsigned i0 <? 5) || (8 <? to_unsigned i0)); [discriminate|].
  unfold bind at 1, ret at 1.
  destruct (arg args 6); try discriminate; cbn [slotIntVal].
  match goal with
  | |- context [SerialPort_ctor dev mem ?obj ?name ?opts] => ctor_cases dev name opts
  end; intros H; inversion H; subst; clear H.
  eexists. split; [reflexivity|]. split; reflexivity.
Qed.

Lemma open_starts_nothing_witness :
  prSerialPort_Open Samples.good_device Samples.clean_storage Samples.object0 Samples.frame0
                    Samples.world0
  = (Ok (errNone, Samples.holding Samples.port0, receiver Samples.object0), Samples.world1) /\
  exists port,
    getSerialPort (Samples.holding Samples.port0) = Some port /\
    Asio.sp_open (m_port port) = true /\
    Asio.sp_pending (m_port port) = [].
Proof.
  assert (H : prSerialPort_Open Samples.good_device Samples.clean_storage Samples.object0
                Samples.frame0 Samples.world0
              = (Ok (errNone, Samples.holding Samples.port0, receiver Samples.object0),
                 Samples.world1)) by (vm_compute; reflexivity).
  split; [exact H|].
  exact (open_starts_nothing _ _ _ _ _ _ _ _ H).
Defined.

(** C10.  Two [Open] calls whose frames differ at most in the exclusive
    flag (argument 2) and the rts/cts flag (argument 7) do the same thing
    to the device and to the world and differ at most in the two flags
    stored in [m_options]; in particular the settings applied to the device
    handle are the same.  The flags themselves are read from the frame and
    stored. *)
Theorem flags_stored_not_applied dev mem self args1 args2 w :
  (forall k, k <> 2%nat -> k <> 7%nat -> arg args1 k = arg args2 k) ->
  forget_flags (prSerialPort_Open dev mem self args1 w)
  = forget_flags (prSerialPort_Open dev mem self args2 w) /\
  device_configuration (prSerialPort_Open dev mem self args1 w)
  = device_configuration (prSerialPort_Open dev mem self args2 w) /\
  (forall self' answer w',
     prSerialPort_Open dev mem self args1 w = (Ok (errNone, self', answer), w') ->
     exists port,
       getSerialPort self' = Some port /\
       exclusive (options port) = IsTrue (arg args1 2) /\
       crtscts (options port) = IsTrue (arg args1 7)).
Proof.
  intros Hsame.
  pose proof (Hsame 1%nat ltac:(lia) ltac:(lia)) as H1.
  pose proof (Hsame 3%nat ltac:(lia) ltac:(lia)) as H3.
  pose proof (Hsame 4%nat ltac:(lia) ltac:(lia)) as H4.
  pose proof (Hsame 5%nat ltac:(lia) ltac:(lia)) as H5.
  pose proof (Hsame 6%nat ltac:(lia) ltac:(lia)) as H6.
  pose proof (Hsame 8%nat ltac:(lia) ltac:(lia)) as H8.
  unfold prSerialPort_Open. rewrite <- H1, <- H3, <- H4, <- H5, <- H6, <- H8.
  generalize (IsTrue (arg args1 2)) (IsTrue (arg args2 2))
             (IsTrue (arg args1 7)) (IsTrue (arg args2 7)).
  intros e1 e2 c1 c2.
  destruct (getSerialPort self) eqn:Hself.
  { repeat split; try reflexivity. discriminate. }
  destruct (arg args1 1); cbn [slotStrVal];
    try (repeat split; try reflexivity; discriminate).
  destruct (arg args1 3); cbn [slotIntVal];
    try (repeat split; try reflexivity; discriminate).
  destruct (arg args1 4); cbn [slotIntVal];
    try (repeat split; try reflexivity; discriminate).
  unfold Asio.make_character_size.
  destruct ((to_unsigned i0 <? 5) || (8 <? to_unsigned i0)).
  { repeat split; try reflexivity. discriminate. }
  unfold bind at 1 3 5, ret at 1 3 5.
  destruct (arg args1 6); cbn [slotIntVal];
    try (repeat split; try reflexivity; discriminate).
  unfold try_catch, bind, effect, ret.
  rewrite !SerialPort_ctor_closed_form.
  cbn [applied_options baudrate parity charsize stop_bits flow_control].
  destruct (Asio.dev_open dev _) as [ec|].
  { repeat split; try reflexivity. discriminate. }
  destruct (first_refusal dev _ _) as [ec|].
  { repeat split; try reflexivity. discriminate. }
  repeat split; try reflexivity.
  intros self' answer w' H. inversion H; subst; clear H.
  eexists. split; [reflexivity|]. split; reflexivity.
Qed.

Lemma flags_stored_not_applied_witness :
  (forall k, k <> 2%nat -> k <> 7%nat ->
     arg (open_frame Samples.object0 "/dev/ttyUSB0" false 9600 8 false 0 false false) k
     = arg (open_frame Samples.object0 "/dev/ttyUSB0" true 9600 8 false 0 true false) k) /\
  device_configuration
    (prSerialPort_Open Samples.good_device Samples.clean_storage Samples.object0
       (open_frame Samples.object0 "/dev/ttyUSB0" false 9600 8 false 0 false false)
       Samples.world0)
  = device_configuration
      (prSerialPort_Open Samples.good_device Samples.clean_storage Samples.object0
         (open_frame Samples.object0 "/dev/ttyUSB0" true 9600 8 false 0 true false)
         Samples.world0).
Proof.
  assert (H : forall k, k <> 2%nat -> k <> 7%nat ->
     arg (open_frame Samples.object0 "/dev/ttyUSB0" false 9600 8 false 0 false false) k
     = arg (open_frame Samples.object0 "/dev/ttyUSB0" true 9600 8 false 0 true false) k).
  { intros k H2 H7.
    do 9 (destruct k as [|k]; [first [reflexivity | contradiction] |]).
    destruct k; reflexivity. }
  split; [exact H|].
  exact (proj1 (proj2 (flags_stored_not_applied Samples.good_device Samples.clean_storage
                         Samples.object0 _ _ Samples.world0 H))).
Defined.

(** ** Put *)

(** Whatever the device does, the primitive cannot tell an integer from its
    low eight bits. *)
Lemma put_depends_on_low_byte dev self n w :
  prSerialPort_Put dev self (SlotInt n) w = prSerialPort_Put dev self (SlotInt (n mod 256)) w.
Proof.
  unfold prSerialPort_Put. destruct (getSerialPort self); [|reflexivity].
  cbn [IsChar slotIntVal]. rewrite !to_uint8_land. now rewrite Z.mod_mod by lia.
Qed.

(** C9.  [Put] takes a character or an integer of any value; on an open
    port whose device accepts a byte it puts the single byte [n mod 256] on
    the line and answers true. *)
Theorem put_writes_low_byte dev self port n w :
  getSerialPort self = Some port ->
  Asio.sp_open (m_port port) = true ->
  (exists k,
     Asio.dev_write dev (Asio.sp_device (m_port port)) (line_out w) [n mod 256]
     = Asio.Accepted (S k)) ->
  prSerialPort_Put dev self (SlotInt n) w = (Ok (errNone, self, SlotTrue), emit [n mod 256] w) /\
  prSerialPort_Put dev self (SlotChar n) w = (Ok (errNone, self, SlotTrue), emit [n mod 256] w).
Proof.
  intros Hself Hopen [k Hk].
  unfold prSerialPort_Put. rewrite Hself.
  cbn [IsChar slotIntVal slotRawChar]. rewrite to_uint8_land.
  unfold put, bind, Asio.write_some, ret. rewrite Hopen, Hk.
  cbn [length]. replace (Nat.min (S k) 1) with 1%nat by lia.
  split; reflexivity.
Qed.

Lemma put_writes_low_byte_witness :
  getSerialPort (Samples.holding Samples.port0) = Some Samples.port0 /\
  Asio.sp_open (m_port Samples.port0) = true /\
  (exists k,
     Asio.dev_write Samples.good_device (Asio.sp_device (m_port Samples.port0))
                    (line_out Samples.world1) [(-1) mod 256]
     = Asio.Accepted (S k)) /\
  prSerialPort_Put Samples.good_device (Samples.holding Samples.port0) (SlotInt (-1)) Samples.world1
  = (Ok (errNone, Samples.holding Samples.port0, SlotTrue), emit [255] Samples.world1).
Proof.
  assert (H1 : getSerialPort (Samples.holding Samples.port0) = Some Samples.port0) by reflexivity.
  assert (H2 : Asio.sp_open (m_port Samples.port0) = true) by reflexivity.
  assert (H3 : exists k,
     Asio.dev_write Samples.good_device (Asio.sp_device (m_port Samples.port0))
                    (line_out Samples.world1) [(-1) mod 256]
     = Asio.Accepted (S k)) by (exists 0%nat; reflexivity).
  split; [exact H1|]. split; [exact H2|]. split; [exact H3|].
  exact (proj1 (put_writes_low_byte Samples.good_device (Samples.holding Samples.port0)
                  Samples.port0 (-1) Samples.world1 H1 H2 H3)).
Defined.

(** A device that takes nothing makes [Put] answer false. *)
Example put_on_stalled_device :
  prSerialPort_Put Samples.stalled_device (Samples.holding Samples.port0) (SlotInt 65)
                   Samples.world1
  = (Ok (errNone, Samples.holding Samples.port0, SlotFalse), Samples.world1).
Proof. reflexivity. Qed.

(** ** The loop *)

(** C1.  The operation [startRead] starts is [async_write_some] over the
    [kBufferSize] bytes of the scratch buffer, and every run of the handler
    [doRead], with or without an error, starts exactly that operation again. *)
Theorem read_loop_starts_writes (error : option errc) (n : nat) (this : SerialPort) (w : World) :
  let started :=
    Asio.mkOp Asio.async_write_some kBufferSize
              (if Asio.sp_open (m_port this) then None else Some bad_descriptor) in
  Asio.sp_pending (m_port (startRead this)) = Asio.sp_pending (m_port this) ++ [started] /\
  Asio.sp_pending (m_port (fst (doRead error n this w)))
  = Asio.sp_pending (m_port this) ++ [started].
Proof.
  split; [reflexivity|].
  unfold doRead. destruct error as [ec|]; [reflexivity|].
  destruct (doRead_loop _ _ _ _ _) as [fifo e1]. reflexivity.
Qed.

(** One turn of the loop on the good device: the completion of the operation
    [startRead] started has put the front of the scratch buffer on the line
    and the same bytes into the queue; a completion that brings bytes in from
    the device is not among the ways that operation can end. *)
Example loop_turn_sends_scratch :
  Samples.line_and_queue (run_one (Written 3) Samples.armed Samples.world1)
  = Some ([7; 8; 9], [7; 8; 9]) /\
  run_one (Received [1; 2; 3]) Samples.armed Samples.world1 = None.
Proof. split; vm_compute; reflexivity. Qed.

(** ** Stopping *)

Lemma stop_open_port this w :
  Asio.sp_open (m_port this) = true ->
  stop this w =
  (Ok (set_port (Asio.mkPort (Asio.sp_device (m_port this)) false
                             (Asio.sp_settings (m_port this))
                             (map Asio.abort (map Asio.abort (Asio.sp_pending (m_port this)))))
                this),
   with_fds pred w).
Proof.
  intros Hopen. unfold stop, bind, Asio.cancel, Asio.close, effect, ret.
  rewrite Hopen. reflexivity.
Qed.

Lemma stop_closed_port this w :
  Asio.sp_open (m_port this) = false ->
  stop this w = (Throw (system_error bad_descriptor "cancel"), w).
Proof.
  intros Hclosed. unfold stop, bind, Asio.cancel, throw.
  rewrite Hclosed. reflexivity.
Qed.

(** On a stopped port [put] does not return: [write_some] throws and
    nothing in [put] or in [_SerialPort_Put] catches it. *)
Lemma put_on_closed_port dev self port src val w :
  getSerialPort self = Some port ->
  Asio.sp_open (m_port port) = false ->
  (if IsChar src then inr (slotRawChar src) else slotIntVal src) = inr val ->
  prSerialPort_Put dev self src w = (Throw (system_error bad_descriptor "write_some"), w).
Proof.
  intros Hself Hclosed Hval.
  unfold prSerialPort_Put. rewrite Hself, Hval.
  unfold put, bind, Asio.write_some. rewrite Hclosed. reflexivity.
Qed.

(** C4.  [Close] on an open port returns [errNone] and leaves the handle
    closed.  A second [stop] on that port, whether through a second [Close]
    or through the destructor that [Cleanup] runs, does not succeed quietly:
    [cancel] throws [bad_descriptor]; out of [Close] the exception escapes,
    in the destructor it ends the process. *)
Theorem second_stop_throws self port w :
  getSerialPort self = Some port ->
  Asio.sp_open (m_port port) = true ->
  exists port' w',
    prSerialPort_Close self w
    = (Ok (errNone, mkObject (obj_id self) (Some port'), receiver self), w') /\
    Asio.sp_open (m_port port') = false /\
    stop port' w' = (Throw (system_error bad_descriptor "cancel"), w') /\
    prSerialPort_Close (mkObject (obj_id self) (Some port')) w'
    = (Throw (system_error bad_descriptor "cancel"), w') /\
    prSerialPort_Cleanup (mkObject (obj_id self) (Some port')) w' = (Terminate, w').
Proof.
  intros Hself Hopen.
  unfold prSerialPort_Close, prSerialPort_Cleanup, SerialPort_dtor, noexcept.
  rewrite Hself. unfold bind at 1. rewrite (stop_open_port port w Hopen).
  do 2 eexists. split; [reflexivity|]. split; [reflexivity|].
  cbn [getSerialPort slot0]. unfold bind.
  rewrite stop_closed_port by reflexivity.
  repeat split.
Qed.

Lemma second_stop_throws_witness :
  getSerialPort (Samples.holding Samples.port0) = Some Samples.port0 /\
  Asio.sp_open (m_port Samples.port0) = true /\
  exists port' w',
    prSerialPort_Close (Samples.holding Samples.port0) Samples.world1
    = (Ok (errNone, Samples.holding port', receiver Samples.object0), w') /\
    Asio.sp_open (m_port port') = false /\
    stop port' w' = (Throw (system_error bad_descriptor "cancel"), w') /\
    prSerialPort_Close (Samples.holding port') w'
    = (Throw (system_error bad_descriptor "cancel"), w') /\
    prSerialPort_Cleanup (Samples.holding port') w' = (Terminate, w').
Proof.
  assert (H1 : getSerialPort (Samples.holding Samples.port0) = Some Samples.port0)
    by reflexivity.
  assert (H2 : Asio.sp_open (m_port Samples.port0) = true) by reflexivity.
  split; [exact H1|]. split; [exact H2|].
  exact (second_stop_throws (Samples.holding Samples.port0) Samples.port0 Samples.world1 H1 H2).
Defined.


(** What every run of the handler does to the port's handle. *)
Lemma doRead_port error n this w :
  m_port (fst (doRead error n this w)) = m_port (startRead this).
Proof.
  unfold doRead. destruct error as [ec|]; [reflexivity|].
  destruct (doRead_loop _ _ _ _ _) as [fifo e1]. reflexivity.
Qed.


(** An operation that is bound to complete with an error does so whatever
    the device is said to have done: its handler is entered with that error
    and with no byte transferred. *)
Lemma run_one_on_fated_operation res this w op rest ec :
  Asio.sp_pending (m_port this) = op :: rest ->
  Asio.op_fate op = Some ec ->
  run_one res this w
  = Some (doRead (Some ec) 0
                 (set_port (Asio.mkPort (Asio.sp_device (m_port this))
                                        (Asio.sp_open (m_port this))
                                        (Asio.sp_settings (m_port this)) rest) this)
                 w).
Proof.
  intros Hp Hfate. unfold run_one. rewrite Hp, Hfate. reflexivity.
Qed.

(** Seen from the event loop: a handler run takes one operation off the
    port and puts one on, so a port that had one pending never has none. *)
Lemma run_one_keeps_pending res this w this' w' :
  run_one res this w = Some (this', w') ->
  length (Asio.sp_pending (m_port this')) = length (Asio.sp_pending (m_port this)).
Proof.
  unfold run_one.
  destruct (Asio.sp_pending (m_port this)) as [|op rest] eqn:Hp; [discriminate|].
  set (this1 := set_port _ this).
  assert (Hrest : Asio.sp_pending (m_port this1) = rest) by reflexivity.
  intros H.
  assert (Hstep : exists error k that v, (this', w') = doRead error k that v /\
                                         Asio.sp_pending (m_port that) = rest).
  { destruct (Asio.op_fate op), res, (Asio.op_kind_of op);
      try discriminate H;
      pose proof (f_equal (fun o => match o with Some x => x | None => (this', w') end) H)
        as H';
      cbv beta iota in H'; symmetry in H'; unfold deliver in H';
      do 4 eexists; (split; [exact H' | first [exact Hrest | reflexivity]]). }
  destruct Hstep as (error & k & that & v & Heq & Hthat).
  pose proof (doRead_port error k that v) as Hport.
  rewrite <- Heq in Hport. simpl in Hport.
  rewrite Hport. unfold startRead, Asio.start. cbn.
  rewrite Hthat, length_app. simpl. lia.
Qed.

(** ** Reading from a stopped port *)

Lemma set_rx_same this : set_rx (m_rxErrors this) (m_rxfifo this) this = this.
Proof. now destruct this. Qed.

Lemma next_n_drains l : forall k self port w,
  getSerialPort self = Some port ->
  m_rxfifo port = l ->
  Forall is_uint8 l ->
  next_n (length l + k) self w =
  (Ok (map (fun b => (errNone, SlotInt b)) l ++ repeat (errNone, SlotNil) k,
       mkObject (obj_id self) (Some (set_rx (m_rxErrors port) [] port))),
   w).
Proof.
  induction l as [|x l IH]; intros k self port w Hself Hq Hbytes.
  - assert (Hport : set_rx (m_rxErrors port) [] port = port)
      by (rewrite <- Hq; apply set_rx_same).
    rewrite Hport. clear Hport. simpl.
    revert self Hself. induction k as [|k IHk]; intros self Hself.
    + simpl. unfold ret. do 2 f_equal. destruct self; simpl in *. now subst.
    + cbn [next_n repeat]. unfold bind at 1.
      unfold prSerialPort_Next. rewrite Hself. unfold get. rewrite Hq. cbn [spsc_queue.pop].
      unfold ret at 1. unfold bind.
      rewrite (IHk (mkObject (obj_id self) (Some port)) eq_refl).
      reflexivity.
  - inversion Hbytes as [|? ? Hx Hl]; subst.
    cbn [length Nat.add next_n map app]. unfold bind at 1.
    unfold prSerialPort_Next. rewrite Hself. unfold get. rewrite Hq. cbn [spsc_queue.pop].
    unfold ret at 1. unfold bind.
    rewrite (IH k (mkObject (obj_id self) (Some (set_rx (m_rxErrors port) l port)))
                (set_rx (m_rxErrors port) l port) w eq_refl eq_refl Hl).
    rewrite land_255_uint8 by exact Hx. reflexivity.
Qed.

(** C5, as stated, fails on a port that had bytes in its queue when it was
    stopped: the first [Read] after the stop answers the oldest of them, not
    "nothing". *)
Lemma read_after_stop_returns_data :
  match Samples.stopped_with_data with
  | Some (port, w) =>
      Asio.sp_open (m_port port) = false /\
      m_rxfifo port = [7; 8; 9] /\
      exists port',
        prSerialPort_Next (Samples.holding port) w
        = (Ok (errNone, Samples.holding port', SlotInt 7), w) /\
        SlotInt 7 <> SlotNil
  | None => False
  end.
Proof.
  vm_compute.
  split; [reflexivity|]. split; [reflexivity|].
  eexists. split; [reflexivity | discriminate].
Qed.

(** C5, amended.  On a stopped port [Read] never raises and never touches
    the world: call after call it answers the bytes that were waiting when
    the port was stopped, oldest first, and from then on "nothing". *)
Theorem reads_after_stop self port w k :
  getSerialPort self = Some port ->
  Asio.sp_open (m_port port) = false ->
  Forall is_uint8 (m_rxfifo port) ->
  exists port',
    next_n (length (m_rxfifo port) + k) self w =
    (Ok (map (fun b => (errNone, SlotInt b)) (m_rxfifo port) ++ repeat (errNone, SlotNil) k,
         mkObject (obj_id self) (Some port')),
     w) /\
    m_rxfifo port' = [] /\
    Asio.sp_open (m_port port') = false.
Proof.
  intros Hself Hclosed Hbytes.
  exists (set_rx (m_rxErrors port) [] port).
  split; [|split].
  - now apply next_n_drains.
  - reflexivity.
  - exact Hclosed.
Qed.

Lemma reads_after_stop_witness :
  getSerialPort (Samples.holding Samples.stopped_port) = Some Samples.stopped_port /\
  Asio.sp_open (m_port Samples.stopped_port) = false /\
  Forall is_uint8 (m_rxfifo Samples.stopped_port) /\
  exists port',
    next_n 5 (Samples.holding Samples.stopped_port) Samples.world0 =
    (Ok ([(errNone, SlotInt 65); (errNone, SlotInt 66); (errNone, SlotInt 67);
          (errNone, SlotNil); (errNone, SlotNil)],
         Samples.holding port'),
     Samples.world0) /\
    m_rxfifo port' = [] /\
    Asio.sp_open (m_port port') = false.
Proof.
  set (port := Samples.stopped_port).
  assert (H1 : getSerialPort (Samples.holding port) = Some port) by reflexivity.
  assert (H2 : Asio.sp_open (m_port port) = false) by reflexivity.
  assert (H3 : Forall is_uint8 (m_rxfifo port))
    by (repeat constructor; unfold is_uint8; lia).
  split; [exact H1|]. split; [exact H2|]. split; [exact H3|].
  exact (reads_after_stop (Samples.holding port) port Samples.world0 2 H1 H2 H3).
Defined.

(* ===================================================================== *)
(** * Further properties of the code *)

(** ** The handler, byte by byte *)

Lemma push_all_int bs : forall fifo e,
  is_int e -> is_int (snd (push_all bs fifo e)).
Proof.
  induction bs as [|b bs IH]; intros fifo e He; simpl.
  - exact He.
  - destruct (spsc_queue.push kBufferSize b fifo) as [[|] fifo'].
    + now apply IH.
    + apply IH, wrap_int_range.
Qed.

Lemma window_length rxbuffer index count : length (window rxbuffer index count) = count.
Proof. unfold window. now rewrite length_map, length_seq. Qed.

(** No byte of a successful completion goes unaccounted for: of the
    [bytesTransferred] bytes [doRead] walks over, those that find room are
    appended to the queue in buffer order behind what was waiting, and
    [m_rxErrors[1]] advances by the number of the others; [m_rxErrors[0]] is
    not touched and the queue ends up no longer than [kBufferSize]. *)
Theorem doRead_accounts_for_every_byte (n : nat) (this : SerialPort) (w : World) :
  Z.of_nat (length (m_rxfifo this)) <= kBufferSize ->
  is_int (snd (m_rxErrors this)) ->
  let this' := fst (doRead None n this w) in
  let len := Z.of_nat (length (m_rxfifo this)) in
  m_rxfifo this'
  = m_rxfifo this ++ firstn (room (m_rxfifo this)) (window (m_rxbuffer this) 0 n) /\
  Z.of_nat (length (m_rxfifo this')) = Z.min (len + Z.of_nat n) kBufferSize /\
  m_rxErrors this'
  = (fst (m_rxErrors this), wrap_int (snd (m_rxErrors this) + dropped len (Z.of_nat n))).
Proof.
  intros Hlen Hint this' len. subst this'. unfold doRead.
  rewrite doRead_loop_push_all.
  destruct (push_all_split (window (m_rxbuffer this) 0 n) (m_rxfifo this)
                           (snd (m_rxErrors this)) Hlen) as (e' & Hpush & He').
  pose proof (push_all_int (window (m_rxbuffer this) 0 n) (m_rxfifo this)
                           (snd (m_rxErrors this)) Hint) as Hint'.
  rewrite Hpush in *. cbn in Hint' |- *.
  rewrite window_length in He'.
  split; [reflexivity|]. split.
  - rewrite length_app, length_firstn, window_length. unfold room. subst len. lia.
  - f_equal. rewrite <- (wrap_int_id e' Hint'), He'. f_equal.
    unfold dropped, room. subst len. lia.
Qed.

Lemma doRead_accounts_for_every_byte_witness :
  Z.of_nat (length (m_rxfifo Samples.port0)) <= kBufferSize /\
  is_int (snd (m_rxErrors Samples.port0)) /\
  m_rxErrors (fst (doRead None 3 Samples.port0 Samples.world1)) = (0, wrap_int (0 + dropped 0 3)).
Proof.
  assert (H1 : Z.of_nat (length (m_rxfifo Samples.port0)) <= kBufferSize)
    by (vm_compute; discriminate).
  assert (H2 : is_int (snd (m_rxErrors Samples.port0)))
    by (change (is_int 0); unfold is_int; lia).
  split; [exact H1|]. split; [exact H2|].
  exact (proj2 (proj2 (doRead_accounts_for_every_byte 3 Samples.port0 Samples.world1 H1 H2))).
Defined.

(** ** Notification *)

Lemma deliver_keeps_owner bs this w : m_obj (fst (deliver bs this w)) = m_obj this.
Proof.
  rewrite deliver_unfold.
  destruct (push_all bs (m_rxfifo this) (snd (m_rxErrors this))) as [fifo e1]. reflexivity.
Qed.

Lemma deliver_world bs this w :
  snd (deliver bs this w) =
  match m_obj this with
  | Some obj => runInterpreter s_dataAvailable obj w
  | None => w
  end.
Proof.
  rewrite deliver_unfold.
  destruct (push_all bs (m_rxfifo this) (snd (m_rxErrors this))) as [fifo e1]. reflexivity.
Qed.

(** A port that knows its object enters the interpreter exactly once per
    successful completion, with the method [prDataAvailable] and that
    object, however many bytes the completion brought and whether or not
    they fitted; nothing else in the world changes, and [prDoneAction] is
    never called. *)
Theorem one_notification_per_completion (chunks : list (list Z)) :
  forall (this : SerialPort) (w : World) (obj : nat),
  m_obj this = Some obj ->
  let w' := snd (deliver_all chunks this w) in
  interpreter_calls w'
  = interpreter_calls w ++ repeat (s_dataAvailable, obj) (length chunks) /\
  open_fds w' = open_fds w /\ line_out w' = line_out w /\ posted w' = posted w.
Proof.
  induction chunks as [|bs chunks IH]; intros this w obj Hobj; simpl.
  - now rewrite app_nil_r.
  - destruct (deliver bs this w) as [this1 w1] eqn:Hd.
    pose proof (deliver_keeps_owner bs this w) as Hown.
    pose proof (deliver_world bs this w) as Hw.
    rewrite Hd in Hown, Hw. simpl in Hown, Hw. rewrite Hobj in Hown, Hw.
    destruct (IH this1 w1 obj Hown) as (Hc & Hf & Hl & Hp).
    rewrite Hc, Hf, Hl, Hp, Hw. cbn.
    rewrite <- app_assoc. repeat split.
Qed.

Lemma one_notification_per_completion_witness :
  m_obj Samples.port0 = Some 1%nat /\
  interpreter_calls (snd (deliver_all [[65]; []; [66; 67]] Samples.port0 Samples.world1))
  = [(s_dataAvailable, 1%nat); (s_dataAvailable, 1%nat); (s_dataAvailable, 1%nat)].
Proof.
  assert (H : m_obj Samples.port0 = Some 1%nat) by reflexivity.
  split; [exact H|].
  exact (proj1 (one_notification_per_completion [[65]; []; [66; 67]]
                  Samples.port0 Samples.world1 1%nat H)).
Defined.

(** A port without an object never enters the interpreter. *)
Theorem no_owner_no_notification (chunks : list (list Z)) :
  forall (this : SerialPort) (w : World),
  m_obj this = None ->
  snd (deliver_all chunks this w) = w.
Proof.
  induction chunks as [|bs chunks IH]; intros this w Hobj; simpl.
  - reflexivity.
  - destruct (deliver bs this w) as [this1 w1] eqn:Hd.
    pose proof (deliver_keeps_owner bs this w) as Hown.
    pose proof (deliver_world bs this w) as Hw.
    rewrite Hd in Hown, Hw. simpl in Hown, Hw. rewrite Hobj in Hown, Hw.
    subst w1. now apply IH.
Qed.

Lemma no_owner_no_notification_witness :
  m_obj (Samples.orphan Samples.port0) = None /\
  snd (deliver_all [[65]; [66]] (Samples.orphan Samples.port0) Samples.world1) = Samples.world1.
Proof.
  assert (H : m_obj (Samples.orphan Samples.port0) = None) by reflexivity.
  split; [exact H|].
  exact (no_owner_no_notification [[65]; [66]] (Samples.orphan Samples.port0) Samples.world1 H).
Defined.

(** ** Errors since the last query *)

Lemma dropped_nonneg len n : 0 <= dropped len n.
Proof. unfold dropped. lia. Qed.

(** Whatever the two counters held before, a query followed by any run of
    completions makes the next query answer the number of bytes that were
    dropped in between, as long as that number fits an [int]. *)
Theorem rxErrors_counts_since_last_query (chunks : list (list Z)) (this : SerialPort) (w : World) :
  Z.of_nat (length (m_rxfifo this)) <= kBufferSize ->
  dropped (Z.of_nat (length (m_rxfifo this))) (arrived chunks) < 2^31 ->
  fst (rxErrors (fst (deliver_all chunks (snd (rxErrors this)) w)))
  = dropped (Z.of_nat (length (m_rxfifo this))) (arrived chunks).
Proof.
  intros Hlen Hfits.
  set (queried := snd (rxErrors this)).
  assert (Hq : m_rxfifo queried = m_rxfifo this) by reflexivity.
  assert (He : m_rxErrors queried = (snd (m_rxErrors this), snd (m_rxErrors this)))
    by reflexivity.
  destruct (deliver_all_count chunks queried w) as (_ & H0 & H1).
  { rewrite Hq. exact Hlen. }
  rewrite Hq, He in *. cbn [fst snd] in H0, H1.
  unfold rxErrors at 1. cbn [fst]. rewrite H0.
  set (x := snd (m_rxErrors this)) in *.
  replace (snd (m_rxErrors (fst (deliver_all chunks queried w))) - x)
    with (snd (m_rxErrors (fst (deliver_all chunks queried w))) + - x) by lia.
  rewrite <- wrap_int_add_l, H1, wrap_int_add_l.
  fold (dropped (Z.of_nat (length (m_rxfifo this))) (arrived chunks)).
  pose proof (dropped_nonneg (Z.of_nat (length (m_rxfifo this))) (arrived chunks)).
  rewrite <- (wrap_int_id (dropped _ _)) at 2 by (unfold is_int; lia).
  f_equal. lia.
Qed.

Lemma rxErrors_counts_since_last_query_witness :
  Z.of_nat (length (m_rxfifo Samples.stale_port)) <= kBufferSize /\
  dropped (Z.of_nat (length (m_rxfifo Samples.stale_port))) (arrived Samples.flood) < 2^31 /\
  fst (rxErrors (fst (deliver_all Samples.flood (snd (rxErrors Samples.stale_port))
                                  Samples.world1)))
  = dropped (Z.of_nat (length (m_rxfifo Samples.stale_port))) (arrived Samples.flood).
Proof.
  assert (H1 : Z.of_nat (length (m_rxfifo Samples.stale_port)) <= kBufferSize)
    by (vm_compute; discriminate).
  assert (H2 : dropped (Z.of_nat (length (m_rxfifo Samples.stale_port)))
                       (arrived Samples.flood) < 2^31)
    by (vm_compute; reflexivity).
  split; [exact H1|]. split; [exact H2|].
  exact (rxErrors_counts_since_last_query Samples.flood Samples.stale_port Samples.world1 H1 H2).
Defined.

(** ** Deliveries and reads in any order *)

Lemma get_shrinks this :
  (length (m_rxfifo (snd (get this))) <= length (m_rxfifo this))%nat /\
  m_rxErrors (snd (get this)) = m_rxErrors this.
Proof.
  unfold get. destruct (m_rxfifo this) as [|x rest] eqn:Hq; simpl.
  - rewrite Hq. split; [simpl; lia | reflexivity].
  - split; [lia | reflexivity].
Qed.

(** The queue never holds more than [kBufferSize] bytes, whatever is
    delivered and read, in whatever order. *)
Theorem queue_never_exceeds_capacity (events : list rx_event) :
  forall (this : SerialPort) (w : World),
  Z.of_nat (length (m_rxfifo this)) <= kBufferSize ->
  Z.of_nat (length (m_rxfifo (snd (fst (play events this w))))) <= kBufferSize.
Proof.
  induction events as [|[bs|] events IH]; intros this w Hlen; simpl.
  - exact Hlen.
  - destruct (deliver bs this w) as [this1 w1] eqn:Hd.
    apply IH. pose proof (deliver_bounded bs this w Hlen) as Hb.
    now rewrite Hd in Hb.
  - destruct (get this) as [answer this1] eqn:Hg.
    pose proof (get_shrinks this) as [Hs _]. rewrite Hg in Hs. simpl in Hs.
    specialize (IH this1 w ltac:(lia)).
    destruct (play events this1 w) as [[answers this2] w2]. exact IH.
Qed.

Lemma queue_never_exceeds_capacity_witness :
  Z.of_nat (length (m_rxfifo Samples.port0)) <= kBufferSize /\
  Z.of_nat (length (m_rxfifo (snd (fst (play (map Arrive Samples.flood ++ [Take; Arrive [1; 2]])
                                             Samples.port0 Samples.world1)))))
  <= kBufferSize.
Proof.
  assert (H : Z.of_nat (length (m_rxfifo Samples.port0)) <= kBufferSize)
    by (vm_compute; discriminate).
  split; [exact H|].
  exact (queue_never_exceeds_capacity _ Samples.port0 Samples.world1 H).
Defined.

(** As long as no delivery finds the queue too full, the bytes that [get]
    has handed out, followed by the bytes still waiting, are the bytes that
    were waiting at the start followed by the bytes delivered, in order:
    reads and deliveries may alternate freely without a byte being lost,
    repeated or overtaken, and no error is counted. *)
Theorem fifo_order_interleaved (events : list rx_event) :
  forall (this : SerialPort) (w : World),
  Forall is_uint8 (m_rxfifo this) ->
  Forall is_uint8 (arrivals events) ->
  never_overflows events (Z.of_nat (length (m_rxfifo this))) = true ->
  let '(answers, this', _) := play events this w in
  taken answers ++ m_rxfifo this' = m_rxfifo this ++ arrivals events /\
  m_rxErrors this' = m_rxErrors this.
Proof.
  induction events as [|[bs|] events IH]; intros this w Hq Hbs Hfit; simpl in *.
  - now rewrite app_nil_r.
  - apply andb_prop in Hfit. destruct Hfit as [Hroom Hfit].
    apply Z.leb_le in Hroom.
    apply Forall_app in Hbs. destruct Hbs as [Hbs Hrest].
    destruct (deliver bs this w) as [this1 w1] eqn:Hd.
    pose proof (deliver_fits bs this w Hroom) as [Hq1 He1].
    rewrite Hd in Hq1, He1. simpl in Hq1, He1.
    specialize (IH this1 w1).
    rewrite Hq1, length_app, Nat2Z.inj_add in IH.
    specialize (IH ltac:(apply Forall_app; now split) Hrest Hfit).
    destruct (play events this1 w1) as [[answers this2] w2].
    destruct IH as [IHq IHe]. split.
    + rewrite IHq. now rewrite <- app_assoc.
    + congruence.
  - unfold get. destruct (m_rxfifo this) as [|x rest] eqn:Hfifo.
    + simpl. specialize (IH this w). rewrite Hfifo in IH.
      specialize (IH Hq Hbs Hfit).
      destruct (play events this w) as [[answers this2] w2]. exact IH.
    + simpl. inversion Hq as [|? ? Hx Hrest]; subst.
      specialize (IH (set_rx (m_rxErrors this) rest this) w). cbn [m_rxfifo set_rx] in IH.
      replace (Z.max 0 (Z.of_nat (length (x :: rest)) - 1)) with (Z.of_nat (length rest))
        in Hfit by (simpl length; lia).
      specialize (IH Hrest Hbs Hfit).
      destruct (play events (set_rx (m_rxErrors this) rest this) w) as [[answers this2] w2].
      destruct IH as [IHq IHe]. split.
      * simpl. rewrite land_255_uint8 by exact Hx. simpl. now rewrite IHq.
      * exact IHe.
Qed.

Lemma fifo_order_interleaved_witness :
  Forall is_uint8 (m_rxfifo Samples.port0) /\
  Forall is_uint8 (arrivals [Arrive [65; 66]; Take; Arrive [67]; Take; Take; Take]) /\
  never_overflows [Arrive [65; 66]; Take; Arrive [67]; Take; Take; Take]
                  (Z.of_nat (length (m_rxfifo Samples.port0))) = true /\
  let '(answers, this', _) :=
    play [Arrive [65; 66]; Take; Arrive [67]; Take; Take; Take] Samples.port0 Samples.world1 in
  taken answers ++ m_rxfifo this' = m_rxfifo Samples.port0 ++ [65; 66; 67] /\
  m_rxErrors this' = m_rxErrors Samples.port0.
Proof.
  assert (H1 : Forall is_uint8 (m_rxfifo Samples.port0)) by constructor.
  assert (H2 : Forall is_uint8 (arrivals [Arrive [65; 66]; Take; Arrive [67]; Take; Take; Take]))
    by (repeat constructor; unfold is_uint8; lia).
  assert (H3 : never_overflows [Arrive [65; 66]; Take; Arrive [67]; Take; Take; Take]
                               (Z.of_nat (length (m_rxfifo Samples.port0))) = true)
    by (vm_compute; reflexivity).
  split; [exact H1|]. split; [exact H2|]. split; [exact H3|].
  exact (fifo_order_interleaved _ Samples.port0 Samples.world1 H1 H2 H3).
Defined.

(** ** Open, in every case *)

Lemma first_refusal_none dev device settings :
  first_refusal dev device settings = None <->
  Forall (fun o => Asio.dev_set dev device o = None) settings.
Proof.
  induction settings as [|o settings IH]; simpl.
  - split; [constructor | reflexivity].
  - destruct (Asio.dev_set dev device o) as [ec|] eqn:Ho.
    + split; [discriminate|]. intros H. inversion H; subst. congruence.
    + rewrite IH. split.
      * intros H. now constructor.
      * intros H. now inversion H.
Qed.

(** The five ways a call of [_SerialPort_Open] can end. *)
Lemma prSerialPort_Open_cases dev mem self args w :
  let r := prSerialPort_Open dev mem self args w in
  (getSerialPort self <> None /\ r = (Ok (errFailed, self, receiver self), w)) \/
  (getSerialPort self = None /\ r = (Ok (errWrongType, self, receiver self), w)) \/
  (getSerialPort self = None /\ r = (Throw (out_of_range "invalid character_size value"), w)) \/
  (getSerialPort self = None /\
   exists ec location,
     (location = "open" \/ location = "set_option") /\
     r = (Ok (errFailed, self, receiver self),
          post ("SerialPort Error: " ++ what (system_error ec location))%string w)) \/
  (getSerialPort self = None /\
   exists serialport options,
     r = (Ok (errNone,
              mkObject (obj_id self)
                       (Some (constructed mem (Some (obj_id self)) serialport options)),
              receiver self),
          with_fds S w)).
Proof.
  cbv zeta. unfold prSerialPort_Open.
  destruct (getSerialPort self) eqn:Hself; [left; split; [discriminate | reflexivity]|].
  right.
  destruct (arg args 1); cbn [slotStrVal]; try (left; split; reflexivity).
  destruct (arg args 3); cbn [slotIntVal]; try (left; split; reflexivity).
  destruct (arg args 4); cbn [slotIntVal]; try (left; split; reflexivity).
  unfold Asio.make_character_size.
  destruct ((to_unsigned i0 <? 5) || (8 <? to_unsigned i0));
    [right; left; split; reflexivity|].
  unfold bind, ret, try_catch, effect; cbv beta iota.
  destruct (arg args 6); cbn [slotIntVal]; try (left; split; reflexivity).
  right. right.
  match goal with
  | |- context [SerialPort_ctor dev mem ?obj ?name ?opts] => ctor_cases dev name opts
  end.
  - left. split; [reflexivity|]. do 2 eexists. split; [left; reflexivity | reflexivity].
  - left. split; [reflexivity|]. do 2 eexists. split; [right; reflexivity | reflexivity].
  - right. split; [reflexivity|]. do 2 eexists. reflexivity.
Qed.


(** On a well-typed frame, for an object without a port and a character
    size between 5 and 8, [Open] succeeds exactly when the device opens and
    accepts each of the five settings; the port it then stores has an open
    handle on the path (cut to [PATH_MAX - 1] characters) with the settings
    applied in the order baud rate, parity, character size, stop bits, flow
    control, keeps the parsed options, and has an empty queue. *)
Theorem open_succeeds_iff dev mem self path excl baud cs two par crts xon w :
  getSerialPort self = None ->
  5 <= cs <= 8 ->
  (Asio.dev_open dev (port_name path) = None /\
   Forall (fun o => Asio.dev_set dev (port_name path) o = None)
          (applied_options (parsed_options excl baud cs two par crts xon)))
  <->
  prSerialPort_Open dev mem self (open_frame self path excl baud cs two par crts xon) w
  = (Ok (errNone,
         mkObject (obj_id self)
                  (Some (constructed mem (Some (obj_id self)) (port_name path)
                                     (parsed_options excl baud cs two par crts xon))),
         receiver self),
     with_fds S w).
Proof.
  intros Hself Hcs.
  rewrite (prSerialPort_Open_on_frame dev mem self path excl baud cs two par crts xon w Hself Hcs).
  rewrite <- first_refusal_none.
  ctor_cases dev (port_name path) (parsed_options excl baud cs two par crts xon).
  - split; [intros [H _]; discriminate | discriminate].
  - split; [intros [_ H]; discriminate | discriminate].
  - split; [reflexivity | intros _; split; reflexivity].
Qed.

Lemma open_succeeds_iff_witness :
  getSerialPort Samples.object0 = None /\
  5 <= 8 <= 8 /\
  prSerialPort_Open Samples.good_device Samples.clean_storage Samples.object0
    (open_frame Samples.object0 "/dev/ttyUSB0" false 9600 8 false 0 false false) Samples.world0
  = (Ok (errNone,
         mkObject (obj_id Samples.object0)
                  (Some (constructed Samples.clean_storage (Some (obj_id Samples.object0))
                                     (port_name "/dev/ttyUSB0")
                                     (parsed_options false 9600 8 false 0 false false))),
         receiver Samples.object0),
     with_fds S Samples.world0).
Proof.
  assert (H1 : getSerialPort Samples.object0 = None) by reflexivity.
  assert (H2 : 5 <= 8 <= 8) by lia.
  split; [exact H1|]. split; [exact H2|].
  apply (proj1 (open_succeeds_iff Samples.good_device Samples.clean_storage Samples.object0
                  "/dev/ttyUSB0" false 9600 8 false 0 false false Samples.world0 H1 H2)).
  split; [reflexivity|]. repeat constructor.
Defined.

(** [Open] on an object that already holds a port is refused with
    [errFailed] before anything is looked at: the port it holds, the device
    and the world stay as they are, whatever the arguments. *)
Theorem open_twice_is_refused dev mem self port args w :
  getSerialPort self = Some port ->
  prSerialPort_Open dev mem self args w = (Ok (errFailed, self, receiver self), w).
Proof.
  intros Hself. unfold prSerialPort_Open. now rewrite Hself.
Qed.

Lemma open_twice_is_refused_witness :
  getSerialPort (Samples.holding Samples.port0) = Some Samples.port0 /\
  prSerialPort_Open Samples.absent_device Samples.stale_storage (Samples.holding Samples.port0)
                    Samples.frame0 Samples.world1
  = (Ok (errFailed, Samples.holding Samples.port0, receiver (Samples.holding Samples.port0)),
     Samples.world1).
Proof.
  assert (H : getSerialPort (Samples.holding Samples.port0) = Some Samples.port0)
    by reflexivity.
  split; [exact H|].
  exact (open_twice_is_refused Samples.absent_device Samples.stale_storage
           (Samples.holding Samples.port0) Samples.port0 Samples.frame0 Samples.world1 H).
Defined.

(** With a path that is a string, an argument of the wrong kind makes [Open]
    return [errWrongType] before the device is touched: a baud rate or a
    character size that is no integer, or, with a character size the option
    class accepts, a parity code that is no integer.  The object, the
    descriptors, the line, the post output and the interpreter are as they
    were. *)
Theorem open_wrong_type dev mem self args path w :
  getSerialPort self = None ->
  arg args 1 = SlotString path ->
  (forall i, arg args 3 <> SlotInt i) \/
  (forall i, arg args 4 <> SlotInt i) \/
  ((forall i, arg args 6 <> SlotInt i) /\
   (forall cs, arg args 4 = SlotInt cs -> 5 <= to_unsigned cs <= 8)) ->
  prSerialPort_Open dev mem self args w = (Ok (errWrongType, self, receiver self), w).
Proof.
  intros Hself Hpath Hbad. unfold prSerialPort_Open. rewrite Hself, Hpath.
  cbn [slotStrVal].
  destruct (arg args 3) eqn:A3; cbn [slotIntVal]; try reflexivity.
  destruct (arg args 4) eqn:A4; cbn [slotIntVal]; try reflexivity.
  destruct Hbad as [H | [H | [H6 H4]]];
    try (exfalso; eapply H; reflexivity).
  specialize (H4 _ eq_refl).
  unfold Asio.make_character_size.
  assert (H5 : (to_unsigned i0 <? 5) = false) by (apply Z.ltb_ge; lia).
  assert (H8 : (8 <? to_unsigned i0) = false) by (apply Z.ltb_ge; lia).
  rewrite H5, H8. cbn [orb]. unfold bind at 1, ret at 1.
  destruct (arg args 6) eqn:A6; cbn [slotIntVal]; try reflexivity.
  exfalso. eapply H6. reflexivity.
Qed.

Lemma open_wrong_type_witness :
  getSerialPort Samples.object0 = None /\
  arg [receiver Samples.object0; SlotString "/dev/ttyUSB0"; SlotFalse; SlotString "9600";
       SlotInt 8; SlotFalse; SlotInt 0; SlotFalse; SlotFalse] 1
  = SlotString "/dev/ttyUSB0" /\
  prSerialPort_Open Samples.good_device Samples.clean_storage Samples.object0
    [receiver Samples.object0; SlotString "/dev/ttyUSB0"; SlotFalse; SlotString "9600";
     SlotInt 8; SlotFalse; SlotInt 0; SlotFalse; SlotFalse] Samples.world0
  = (Ok (errWrongType, Samples.object0, receiver Samples.object0), Samples.world0).
Proof.
  assert (H1 : getSerialPort Samples.object0 = None) by reflexivity.
  assert (H2 : arg [receiver Samples.object0; SlotString "/dev/ttyUSB0"; SlotFalse;
                    SlotString "9600"; SlotInt 8; SlotFalse; SlotInt 0; SlotFalse; SlotFalse] 1
               = SlotString "/dev/ttyUSB0") by reflexivity.
  split; [exact H1|]. split; [exact H2|].
  apply (open_wrong_type Samples.good_device Samples.clean_storage Samples.object0 _
                         "/dev/ttyUSB0" Samples.world0 H1 H2).
  left. intros i. discriminate.
Defined.

(** ** Primitives on an object without a port *)

(** Every primitive other than [Open] answers [errFailed] on an object whose
    first slot holds no port, and leaves the object and the world alone. *)
Theorem primitives_need_a_port dev self src w :
  getSerialPort self = None ->
  prSerialPort_Close self w = (Ok (errFailed, self, receiver self), w) /\
  prSerialPort_Cleanup self w = (Ok (errFailed, self, receiver self), w) /\
  prSerialPort_Next self w = (Ok (errFailed, self, receiver self), w) /\
  prSerialPort_Put dev self src w = (Ok (errFailed, self, receiver self), w) /\
  prSerialPort_RXErrors self w = (Ok (errFailed, self, receiver self), w).
Proof.
  intros Hself.
  unfold prSerialPort_Close, prSerialPort_Cleanup, prSerialPort_Next, prSerialPort_Put,
    prSerialPort_RXErrors.
  rewrite Hself. repeat split.
Qed.

Lemma primitives_need_a_port_witness :
  getSerialPort Samples.object0 = None /\
  prSerialPort_Next Samples.object0 Samples.world0
  = (Ok (errFailed, Samples.object0, receiver Samples.object0), Samples.world0).
Proof.
  assert (H : getSerialPort Samples.object0 = None) by reflexivity.
  split; [exact H|].
  exact (proj1 (proj2 (proj2 (primitives_need_a_port Samples.good_device Samples.object0
                                SlotNil Samples.world0 H)))).
Defined.

(** ** Open and Cleanup *)

(** [Cleanup] undoes a successful [Open]: the object is again the object it
    was, without a port, and the world is again the world it was, with the
    descriptor given back. *)
Theorem open_then_cleanup_restores dev mem self args w self' answer w' :
  prSerialPort_Open dev mem self args w = (Ok (errNone, self', answer), w') ->
  prSerialPort_Cleanup self' w' = (Ok (errNone, self, receiver self), w).
Proof.
  intros Hopen.
  destruct (prSerialPort_Open_cases dev mem self args w)
    as [[_ H] | [[_ H] | [[_ H] | [[_ (ec & loc & _ & H)] | [Hnone (name & opts & H)]]]]];
    cbv zeta in H; rewrite H in Hopen; try discriminate.
  inversion Hopen; subst; clear Hopen.
  unfold prSerialPort_Cleanup, SerialPort_dtor, noexcept. cbn [getSerialPort slot0 obj_id].
  unfold bind. rewrite stop_open_port by reflexivity. cbn.
  rewrite with_fds_pred_S.
  destruct self as [id slot]. cbn in Hnone. subst slot. reflexivity.
Qed.

Lemma open_then_cleanup_restores_witness :
  prSerialPort_Open Samples.good_device Samples.clean_storage Samples.object0 Samples.frame0
                    Samples.world0
  = (Ok (errNone, Samples.holding Samples.port0, receiver Samples.object0), Samples.world1) /\
  prSerialPort_Cleanup (Samples.holding Samples.port0) Samples.world1
  = (Ok (errNone, Samples.object0, receiver Samples.object0), Samples.world0).
Proof.
  assert (H : prSerialPort_Open Samples.good_device Samples.clean_storage Samples.object0
                Samples.frame0 Samples.world0
              = (Ok (errNone, Samples.holding Samples.port0, receiver Samples.object0),
                 Samples.world1)) by (vm_compute; reflexivity).
  split; [exact H|].
  exact (open_then_cleanup_restores _ _ _ _ _ _ _ _ H).
Defined.

(** ** Next *)

(** [Next] on an object with a port always returns [errNone] and touches
    neither the world, nor the handle, nor the error counters.  It answers
    nil exactly when the queue is empty; otherwise it answers the oldest
    byte, an integer from 0 to 255, and takes exactly that byte off the
    queue. *)
Theorem next_answers_oldest_or_nil self port w :
  getSerialPort self = Some port ->
  exists port' answer,
    prSerialPort_Next self w = (Ok (errNone, mkObject (obj_id self) (Some port'), answer), w) /\
    m_port port' = m_port port /\ m_rxErrors port' = m_rxErrors port /\
    (answer = SlotNil <-> m_rxfifo port = []) /\
    match m_rxfifo port with
    | [] => port' = port
    | x :: rest => answer = SlotInt (x mod 256) /\ 0 <= x mod 256 < 256 /\ m_rxfifo port' = rest
    end.
Proof.
  intros Hself. unfold prSerialPort_Next. rewrite Hself. unfold get.
  destruct (m_rxfifo port) as [|x rest] eqn:Hq; cbn [spsc_queue.pop].
  - exists port, SlotNil. repeat split; auto.
  - exists (set_rx (m_rxErrors port) rest port), (SlotInt (Z.land x 255)).
    rewrite land_255. repeat split; try discriminate.
    + apply Z.mod_pos_bound. lia.
    + apply Z.mod_pos_bound. lia.
Qed.

Lemma next_answers_oldest_or_nil_witness :
  getSerialPort (Samples.holding Samples.stopped_port) = Some Samples.stopped_port /\
  exists port' answer,
    prSerialPort_Next (Samples.holding Samples.stopped_port) Samples.world0
    = (Ok (errNone, Samples.holding port', answer), Samples.world0) /\
    m_port port' = m_port Samples.stopped_port /\
    m_rxErrors port' = m_rxErrors Samples.stopped_port /\
    (answer = SlotNil <-> m_rxfifo Samples.stopped_port = []) /\
    answer = SlotInt (65 mod 256) /\ 0 <= 65 mod 256 < 256 /\ m_rxfifo port' = [66; 67].
Proof.
  assert (H : getSerialPort (Samples.holding Samples.stopped_port) = Some Samples.stopped_port)
    by reflexivity.
  split; [exact H|].
  exact (next_answers_oldest_or_nil (Samples.holding Samples.stopped_port) Samples.stopped_port
                                    Samples.world0 H).
Defined.

(** ** Put *)

(** Whenever [Put] returns, the object is as it was and the line has either
    grown by exactly the one byte [val mod 256], in which case the answer is
    true, or not changed at all, in which case the answer is false, or, for
    a value that is neither a character nor an integer, the receiver with
    [errWrongType]; a byte is never half written and nothing but the line
    changes.  [Put] returns [errNone] only on an open handle. *)
Theorem put_all_or_nothing dev self port src w err self' answer w' :
  getSerialPort self = Some port ->
  prSerialPort_Put dev self src w = (Ok (err, self', answer), w') ->
  self' = self /\
  open_fds w' = open_fds w /\ posted w' = posted w /\
  interpreter_calls w' = interpreter_calls w /\
  ((err = errNone /\ answer = SlotTrue /\ Asio.sp_open (m_port port) = true /\
    exists val, (src = SlotInt val \/ src = SlotChar val) /\
                line_out w' = line_out w ++ [val mod 256]) \/
   (err = errNone /\ answer = SlotFalse /\ Asio.sp_open (m_port port) = true /\ w' = w) \/
   (err = errWrongType /\ answer = receiver self /\ w' = w)).
Proof.
  intros Hself. unfold prSerialPort_Put. rewrite Hself.
  assert (Hval : forall val,
    (src = SlotInt val \/ src = SlotChar val) ->
    (res <- put dev (to_uint8 (Z.land val 255)) port ;; ret (errNone, self, SetBool res)) w
    = (Ok (err, self', answer), w') ->
    self' = self /\
    open_fds w' = open_fds w /\ posted w' = posted w /\
    interpreter_calls w' = interpreter_calls w /\
    ((err = errNone /\ answer = SlotTrue /\ Asio.sp_open (m_port port) = true /\
      exists val, (src = SlotInt val \/ src = SlotChar val) /\
                  line_out w' = line_out w ++ [val mod 256]) \/
     (err = errNone /\ answer = SlotFalse /\ Asio.sp_open (m_port port) = true /\ w' = w) \/
     (err = errWrongType /\ answer = receiver self /\ w' = w))).
  { intros val Hsrc. rewrite to_uint8_land.
    unfold put, bind, Asio.write_some, ret.
    destruct (Asio.sp_open (m_port port)); [|discriminate].
    destruct (Asio.dev_write dev _ _ _) as [k|ec]; [|discriminate].
    destruct k as [|k]; cbn [length]; intros H.
    - cbn in H. inversion H; subst; clear H.
      repeat split; try (destruct w; reflexivity).
      right. left. repeat split. destruct w; unfold emit; cbn. now rewrite app_nil_r.
    - replace (Nat.min (S k) 1) with 1%nat in H by lia.
      cbn in H. inversion H; subst; clear H.
      repeat split. left. repeat split. exists val. split; [exact Hsrc | reflexivity]. }
  destruct src; cbn [IsChar slotIntVal slotRawChar];
    try (intros H; inversion H; subst; clear H; repeat split;
         right; right; repeat split).
  - apply Hval. now left.
  - apply Hval. now right.
Qed.

Lemma put_all_or_nothing_witness :
  getSerialPort (Samples.holding Samples.port0) = Some Samples.port0 /\
  prSerialPort_Put Samples.good_device (Samples.holding Samples.port0) (SlotInt 321)
                   Samples.world1
  = (Ok (errNone, Samples.holding Samples.port0, SlotTrue), emit [65] Samples.world1) /\
  open_fds (emit [65] Samples.world1) = open_fds Samples.world1.
Proof.
  assert (H1 : getSerialPort (Samples.holding Samples.port0) = Some Samples.port0)
    by reflexivity.
  assert (H2 : prSerialPort_Put Samples.good_device (Samples.holding Samples.port0)
                 (SlotInt 321) Samples.world1
               = (Ok (errNone, Samples.holding Samples.port0, SlotTrue),
                  emit [65] Samples.world1))
    by reflexivity.
  split; [exact H1|]. split; [exact H2|].
  exact (proj1 (proj2 (put_all_or_nothing _ _ _ _ _ _ _ _ _ H1 H2))).
Defined.

(** ** After stop *)

Lemma stop_returns this w this' w' :
  stop this w = (Ok this', w') ->
  Asio.sp_open (m_port this) = true /\
  this' = set_port (Asio.mkPort (Asio.sp_device (m_port this)) false
                                (Asio.sp_settings (m_port this))
                                (map Asio.abort (map Asio.abort (Asio.sp_pending (m_port this)))))
                   this /\
  w' = with_fds pred w.
Proof.
  intros H. destruct (Asio.sp_open (m_port this)) eqn:Hopen.
  - rewrite (stop_open_port this w Hopen) in H. inversion H; subst. auto.
  - rewrite (stop_closed_port this w Hopen) in H. discriminate.
Qed.

(** ** Whole runs of primitives and handlers *)

Lemma object_eta self port :
  getSerialPort self = Some port -> mkObject (obj_id self) (Some port) = self.
Proof. destruct self as [id slot]; cbn. now intros ->. Qed.

(** One request on an idle object. *)
Lemma serve_idle dev r self w err self' answer w' :
  idle self ->
  serve dev r self w = (Ok (err, self', answer), w') ->
  idle self' /\ interpreter_calls w' = interpreter_calls w.
Proof.
  intros Hidle. destruct r as [mem args| | | |src| |res]; cbn [serve].
  - intros H.
    destruct (prSerialPort_Open_cases dev mem self args w)
      as [[_ H'] | [[_ H'] | [[_ H'] | [[_ (ec & loc & _ & H')] | [_ (name & opts & H')]]]]];
      cbv zeta in H'; rewrite H' in H; inversion H; subst; clear H;
      try (split; [exact Hidle | reflexivity]).
    split; [|reflexivity]. unfold idle. cbn. split; reflexivity.
  - unfold prSerialPort_Close, idle in *.
    destruct (getSerialPort self) as [port|] eqn:Hself.
    + unfold bind. destruct (stop port w) as [[port'| |] w1] eqn:Hstop; try discriminate.
      intros H. inversion H; subst; clear H.
      apply stop_returns in Hstop. destruct Hstop as (_ & -> & ->).
      destruct Hidle as [Hp Hq]. cbn. rewrite Hp. repeat split. exact Hq.
    + intros H. inversion H; subst; clear H. rewrite Hself. split; [exact I | reflexivity].
  - unfold prSerialPort_Cleanup, idle in *.
    destruct (getSerialPort self) as [port|] eqn:Hself.
    + unfold SerialPort_dtor, noexcept, bind, effect.
      destruct (stop port w) as [[port'| |] w1] eqn:Hstop; try discriminate.
      intros H. inversion H; subst; clear H.
      apply stop_returns in Hstop. destruct Hstop as (_ & -> & ->).
      cbn. split; [exact I | reflexivity].
    + intros H. inversion H; subst; clear H. rewrite Hself. split; [exact I | reflexivity].
  - unfold prSerialPort_Next, idle in *.
    destruct (getSerialPort self) as [port|] eqn:Hself.
    + destruct Hidle as [Hp Hq]. unfold get. rewrite Hq. cbn.
      intros H. inversion H; subst; clear H. cbn. auto.
    + intros H. inversion H; subst; clear H. rewrite Hself. split; [exact I | reflexivity].
  - unfold prSerialPort_Put.
    destruct (getSerialPort self) as [port|] eqn:Hself.
    + destruct (if IsChar src then inr (slotRawChar src) else slotIntVal src) as [e|val].
      * intros H. inversion H; subst; clear H. split; [exact Hidle | reflexivity].
      * unfold put, bind, Asio.write_some, ret.
        destruct (Asio.sp_open (m_port port)); [|discriminate].
        destruct (Asio.dev_write dev _ _ _) as [k|ec]; [|discriminate].
        intros H. inversion H; subst; clear H. split; [exact Hidle | reflexivity].
    + intros H. inversion H; subst; clear H. split; [exact Hidle | reflexivity].
  - unfold prSerialPort_RXErrors, idle in *.
    destruct (getSerialPort self) as [port|] eqn:Hself.
    + cbn. intros H. inversion H; subst; clear H. cbn. split; [exact Hidle | reflexivity].
    + intros H. inversion H; subst; clear H. rewrite Hself. split; [exact I | reflexivity].
  - unfold idle in *.
    destruct (getSerialPort self) as [port|] eqn:Hself.
    + destruct Hidle as [Hp Hq]. unfold run_one. rewrite Hp.
      intros H. inversion H; subst; clear H. rewrite Hself. auto.
    + intros H. inversion H; subst; clear H. rewrite Hself. split; [exact I | reflexivity].
Qed.

Lemma serve_all_idle dev rs : forall self w answers self' w',
  idle self ->
  serve_all dev rs self w = (Ok (answers, self'), w') ->
  idle self' /\ interpreter_calls w' = interpreter_calls w.
Proof.
  induction rs as [|r rs IH]; intros self w answers self' w' Hidle; cbn [serve_all].
  - intros H. inversion H; subst. auto.
  - unfold bind at 1.
    destruct (serve dev r self w) as [[[[err self1] answer]| |] w1] eqn:Hr; try discriminate.
    destruct (serve_idle dev r self w err self1 answer w1 Hidle Hr) as [Hidle1 Hc1].
    unfold bind.
    destruct (serve_all dev rs self1 w1) as [[[answers1 self2]| |] w2] eqn:Hrs;
      try discriminate.
    intros H. inversion H; subst; clear H.
    destruct (IH self1 w1 answers1 self' w' Hidle1 Hrs) as [Hidle2 Hc2].
    split; [exact Hidle2 | congruence].
Qed.

(** Through the primitives and the event loop alone the port never receives
    anything.  Start from an object without a port and let any requests be
    served in any order, [Open] included, with completion handlers run
    whenever [ioService] has one: as long as the requests return, no
    asynchronous operation is ever pending, the queue stays empty, the
    interpreter is never called back, and [Next] answers nil (or fails for
    want of a port). *)
Theorem primitives_never_start_the_loop dev rs self w answers self' w' :
  getSerialPort self = None ->
  serve_all dev rs self w = (Ok (answers, self'), w') ->
  idle self' /\
  interpreter_calls w' = interpreter_calls w /\
  (forall res, serve dev (ReqPoll res) self' w' = (Ok (errNone, self', receiver self'), w')) /\
  (prSerialPort_Next self' w' = (Ok (errNone, self', SlotNil), w') \/
   prSerialPort_Next self' w' = (Ok (errFailed, self', receiver self'), w')).
Proof.
  intros Hself Hrun.
  assert (Hidle : idle self) by (unfold idle; now rewrite Hself).
  destruct (serve_all_idle dev rs self w answers self' w' Hidle Hrun) as [Hidle' Hc].
  split; [exact Hidle'|]. split; [exact Hc|].
  unfold idle in Hidle'. cbn [serve]. unfold prSerialPort_Next.
  destruct (getSerialPort self') as [port|] eqn:Hself'.
  - destruct Hidle' as [Hp Hq]. split.
    + intros res. unfold run_one. now rewrite Hp.
    + left. unfold get. rewrite Hq. cbn. now rewrite (object_eta self' port Hself').
  - split; [reflexivity | now right].
Qed.

Lemma primitives_never_start_the_loop_witness :
  getSerialPort Samples.object0 = None /\
  serve_all Samples.good_device
            [ReqOpen Samples.clean_storage Samples.frame0; ReqPoll (Received [1; 2; 3]);
             ReqPut (SlotInt 65); ReqNext]
            Samples.object0 Samples.world0
  = (Ok ([(errNone, receiver Samples.object0); (errNone, receiver Samples.object0);
          (errNone, SlotTrue); (errNone, SlotNil)],
         Samples.holding Samples.port0),
     emit [65] Samples.world1) /\
  idle (Samples.holding Samples.port0).
Proof.
  assert (H1 : getSerialPort Samples.object0 = None) by reflexivity.
  assert (H2 : serve_all Samples.good_device
                 [ReqOpen Samples.clean_storage Samples.frame0; ReqPoll (Received [1; 2; 3]);
                  ReqPut (SlotInt 65); ReqNext]
                 Samples.object0 Samples.world0
               = (Ok ([(errNone, receiver Samples.object0); (errNone, receiver Samples.object0);
                       (errNone, SlotTrue); (errNone, SlotNil)],
                      Samples.holding Samples.port0),
                  emit [65] Samples.world1)) by (vm_compute; reflexivity).
  split; [exact H1|]. split; [exact H2|].
  exact (proj1 (primitives_never_start_the_loop _ _ _ _ _ _ _ H1 H2)).
Defined.

(** ** Descriptors *)

Lemma run_one_handle res this w this' w' :
  run_one res this w = Some (this', w') ->
  Asio.sp_open (m_port this') = Asio.sp_open (m_port this) /\ open_fds w' = open_fds w.
Proof.
  unfold run_one.
  destruct (Asio.sp_pending (m_port this)) as [|op rest]; [discriminate|].
  set (this1 := set_port _ this).
  assert (Hopen1 : Asio.sp_open (m_port this1) = Asio.sp_open (m_port this)) by reflexivity.
  assert (Hstep : forall error k that v,
             Asio.sp_open (m_port that) = Asio.sp_open (m_port this) ->
             open_fds v = open_fds w ->
             Asio.sp_open (m_port (fst (doRead error k that v))) = Asio.sp_open (m_port this) /\
             open_fds (snd (doRead error k that v)) = open_fds w).
  { intros error k that v Ho Hf. rewrite doRead_port. split; [exact Ho|].
    unfold doRead. destruct error; [exact Hf|].
    destruct (doRead_loop _ _ _ _ _) as [fifo e1]. cbn.
    unfold dataAvailable. cbn. destruct (m_obj that); exact Hf. }
  intros H.
  destruct (Asio.op_fate op), res, (Asio.op_kind_of op); try discriminate H;
    pose proof (f_equal (fun o => match o with Some x => x | None => (this', w') end) H) as H';
    cbv beta iota in H'; unfold deliver in H';
    match type of H' with
    | doRead ?error ?k ?that ?v = _ =>
        destruct (Hstep error k that v) as [Ha Hb];
        [reflexivity | reflexivity | rewrite H' in Ha, Hb; auto]
    end.
Qed.

(** One request keeps the books: the descriptors open beyond a fixed base
    are those the object accounts for. *)
Lemma serve_descriptors dev r self w err self' answer w' (base : nat) :
  open_fds w = (base + held self)%nat ->
  serve dev r self w = (Ok (err, self', answer), w') ->
  open_fds w' = (base + held self')%nat.
Proof.
  intros Hbase. destruct r as [mem args| | | |src| |res]; cbn [serve].
  - intros H.
    destruct (prSerialPort_Open_cases dev mem self args w)
      as [[_ H'] | [[_ H'] | [[_ H'] | [[_ (ec & loc & _ & H')] | [Hnone (name & opts & H')]]]]];
      cbv zeta in H'; rewrite H' in H; inversion H; subst; clear H;
      try exact Hbase.
    unfold held in *. rewrite Hnone in Hbase. cbn. lia.
  - unfold prSerialPort_Close, held in *.
    destruct (getSerialPort self) as [port|] eqn:Hself.
    + unfold bind. destruct (stop port w) as [[port'| |] w1] eqn:Hstop; try discriminate.
      intros H. inversion H; subst; clear H.
      apply stop_returns in Hstop. destruct Hstop as (Hopen & -> & ->).
      rewrite Hopen in Hbase. cbn. lia.
    + intros H. inversion H; subst; clear H. now rewrite Hself.
  - unfold prSerialPort_Cleanup, held in *.
    destruct (getSerialPort self) as [port|] eqn:Hself.
    + unfold SerialPort_dtor, noexcept, bind, effect.
      destruct (stop port w) as [[port'| |] w1] eqn:Hstop; try discriminate.
      intros H. inversion H; subst; clear H.
      apply stop_returns in Hstop. destruct Hstop as (Hopen & -> & ->).
      rewrite Hopen in Hbase. cbn. lia.
    + intros H. inversion H; subst; clear H. now rewrite Hself.
  - unfold prSerialPort_Next, held in *.
    destruct (getSerialPort self) as [port|] eqn:Hself.
    + unfold get. destruct (spsc_queue.pop (m_rxfifo port)) as [[x rest]|];
        intros H; inversion H; subst; clear H; exact Hbase.
    + intros H. inversion H; subst; clear H. now rewrite Hself.
  - unfold prSerialPort_Put.
    destruct (getSerialPort self) as [port|] eqn:Hself.
    + destruct (if IsChar src then inr (slotRawChar src) else slotIntVal src) as [e|val].
      * intros H. inversion H; subst; clear H. exact Hbase.
      * unfold put, bind, Asio.write_some, ret.
        destruct (Asio.sp_open (m_port port)); [|discriminate].
        destruct (Asio.dev_write dev _ _ _) as [k|ec]; [|discriminate].
        intros H. inversion H; subst; clear H. exact Hbase.
    + intros H. inversion H; subst; clear H. exact Hbase.
  - unfold prSerialPort_RXErrors, held in *.
    destruct (getSerialPort self) as [port|] eqn:Hself.
    + cbn. intros H. inversion H; subst; clear H. exact Hbase.
    + intros H. inversion H; subst; clear H. now rewrite Hself.
  - unfold held in *.
    destruct (getSerialPort self) as [port|] eqn:Hself.
    + destruct (run_one res port w) as [[port' w1]|] eqn:Hrun.
      * intros H. inversion H; subst; clear H.
        destruct (run_one_handle res port w port' w' Hrun) as [Ho Hf].
        cbn. rewrite Ho, Hf. exact Hbase.
      * intros H. inversion H; subst; clear H. now rewrite Hself.
    + intros H. inversion H; subst; clear H. now rewrite Hself.
Qed.

(** No descriptor leaks and none is given back twice.  Start from an object
    without a port; after any requests that return, primitives and handler
    runs in any order, the process holds exactly the descriptors it held at
    the start, plus one if the object now holds a port whose handle is open. *)
Theorem descriptors_are_accounted_for dev rs : forall self w answers self' w',
  getSerialPort self = None ->
  serve_all dev rs self w = (Ok (answers, self'), w') ->
  open_fds w' = (open_fds w + held self')%nat.
Proof.
  assert (Hgen : forall rs self w answers self' w' base,
             open_fds w = (base + held self)%nat ->
             serve_all dev rs self w = (Ok (answers, self'), w') ->
             open_fds w' = (base + held self')%nat).
  { clear rs. induction rs as [|r rs IH]; intros self w answers self' w' base Hbase;
      cbn [serve_all].
    - intros H. inversion H; subst. exact Hbase.
    - unfold bind at 1.
      destruct (serve dev r self w) as [[[[err self1] answer]| |] w1] eqn:Hr; try discriminate.
      pose proof (serve_descriptors dev r self w err self1 answer w1 base Hbase Hr) as Hbase1.
      unfold bind.
      destruct (serve_all dev rs self1 w1) as [[[answers1 self2]| |] w2] eqn:Hrs;
        try discriminate.
      intros H. inversion H; subst; clear H.
      exact (IH self1 w1 answers1 self' w' base Hbase1 Hrs). }
  intros self w answers self' w' Hself Hrun.
  apply (Hgen rs self w answers self' w' (open_fds w)); [|exact Hrun].
  unfold held. rewrite Hself. lia.
Qed.

Lemma descriptors_are_accounted_for_witness :
  getSerialPort Samples.object0 = None /\
  serve_all Samples.fixed_rate_device
            [ReqOpen Samples.clean_storage
                     (open_frame Samples.object0 "/dev/ttyUSB0" false 115200 8 false 0 false false);
             ReqOpen Samples.clean_storage Samples.frame0; ReqClose]
            Samples.object0 Samples.world0
  = (Ok ([(errFailed, receiver Samples.object0); (errNone, receiver Samples.object0);
          (errNone, receiver Samples.object0)],
         Samples.holding (Samples.closed_port [])),
     post "SerialPort Error: set_option: Invalid argument" Samples.world0) /\
  open_fds (post "SerialPort Error: set_option: Invalid argument" Samples.world0)
  = (open_fds Samples.world0 + held (Samples.holding (Samples.closed_port [])))%nat.
Proof.
  assert (H1 : getSerialPort Samples.object0 = None) by reflexivity.
  assert (H2 : serve_all Samples.fixed_rate_device
            [ReqOpen Samples.clean_storage
                     (open_frame Samples.object0 "/dev/ttyUSB0" false 115200 8 false 0 false false);
             ReqOpen Samples.clean_storage Samples.frame0; ReqClose]
            Samples.object0 Samples.world0
  = (Ok ([(errFailed, receiver Samples.object0); (errNone, receiver Samples.object0);
          (errNone, receiver Samples.object0)],
         Samples.holding (Samples.closed_port [])),
     post "SerialPort Error: set_option: Invalid argument" Samples.world0))
    by (vm_compute; reflexivity).
  split; [exact H1|]. split; [exact H2|].
  exact (descriptors_are_accounted_for _ _ _ _ _ _ _ H1 H2).
Defined.

(** ** The loop, once armed *)

(** Handler runs never change the number of operations outstanding on the
    port: each run answers one operation and starts one.  A port armed with
    one [startRead] therefore has exactly one operation outstanding after
    any number of completions, whether they succeed or fail and whether or
    not the port has been stopped. *)
Theorem outstanding_operations_are_kept (rs : list io_result) :
  forall (this : SerialPort) (w : World),
  length (Asio.sp_pending (m_port (fst (run_many rs this w))))
  = length (Asio.sp_pending (m_port this)).
Proof.
  induction rs as [|r rs IH]; intros this w; simpl.
  - reflexivity.
  - destruct (run_one r this w) as [[this1 w1]|] eqn:Hrun.
    + rewrite IH. exact (run_one_keeps_pending r this w this1 w1 Hrun).
    + reflexivity.
Qed.

(** ** Cleanup *)

(** After a [Cleanup] that returned [errNone] the object holds no port any
    more: [Close], [Cleanup], [Next], [Put] and [RXErrors] all answer
    [errFailed] and change nothing. *)
Theorem cleanup_detaches_the_port dev self src w self' answer w' :
  prSerialPort_Cleanup self w = (Ok (errNone, self', answer), w') ->
  getSerialPort self' = None /\
  prSerialPort_Close self' w' = (Ok (errFailed, self', receiver self'), w') /\
  prSerialPort_Cleanup self' w' = (Ok (errFailed, self', receiver self'), w') /\
  prSerialPort_Next self' w' = (Ok (errFailed, self', receiver self'), w') /\
  prSerialPort_Put dev self' src w' = (Ok (errFailed, self', receiver self'), w') /\
  prSerialPort_RXErrors self' w' = (Ok (errFailed, self', receiver self'), w').
Proof.
  unfold prSerialPort_Cleanup at 1.
  destruct (getSerialPort self) as [port|]; [|discriminate].
  unfold SerialPort_dtor, noexcept, bind, effect, ret.
  destruct (stop port w) as [[port'| |] w1]; try discriminate.
  intros H. inversion H; subst; clear H.
  repeat split.
Qed.

Lemma cleanup_detaches_the_port_witness :
  prSerialPort_Cleanup (Samples.holding Samples.port0) Samples.world1
  = (Ok (errNone, Samples.object0, receiver Samples.object0), Samples.world0) /\
  prSerialPort_Next Samples.object0 Samples.world0
  = (Ok (errFailed, Samples.object0, receiver Samples.object0), Samples.world0).
Proof.
  assert (H : prSerialPort_Cleanup (Samples.holding Samples.port0) Samples.world1
              = (Ok (errNone, Samples.object0, receiver Samples.object0), Samples.world0))
    by (vm_compute; reflexivity).
  split; [exact H|].
  exact (proj1 (proj2 (proj2 (proj2 (cleanup_detaches_the_port Samples.good_device _ SlotNil
                                       _ _ _ _ H))))).
Defined.

(** ** Exceptions that leave a primitive *)

Lemma open_with_invalid_character_size_witness :
  getSerialPort Samples.object0 = None /\
  (to_unsigned 9 < 5 \/ 8 < to_unsigned 9) /\
  prSerialPort_Open Samples.good_device Samples.clean_storage Samples.object0
    (open_frame Samples.object0 "/dev/ttyUSB0" false 9600 9 false 0 false false) Samples.world0
  = (Throw (out_of_range "invalid character_size value"), Samples.world0).
Proof.
  assert (H1 : getSerialPort Samples.object0 = None) by reflexivity.
  assert (H2 : to_unsigned 9 < 5 \/ 8 < to_unsigned 9) by (right; reflexivity).
  split; [exact H1|]. split; [exact H2|].
  exact (open_with_invalid_character_size Samples.good_device Samples.clean_storage
           Samples.object0 "/dev/ttyUSB0" false 9600 9 false 0 false false Samples.world0 H1 H2).
Defined.

Lemma put_on_closed_port_witness :
  getSerialPort (Samples.holding Samples.stopped_port) = Some Samples.stopped_port /\
  Asio.sp_open (m_port Samples.stopped_port) = false /\
  (if IsChar (SlotInt 65) then inr (slotRawChar (SlotInt 65)) else slotIntVal (SlotInt 65))
  = inr 65 /\
  prSerialPort_Put Samples.good_device (Samples.holding Samples.stopped_port) (SlotInt 65)
                   Samples.world0
  = (Throw (system_error bad_descriptor "write_some"), Samples.world0).
Proof.
  assert (H1 : getSerialPort (Samples.holding Samples.stopped_port) = Some Samples.stopped_port)
    by reflexivity.
  assert (H2 : Asio.sp_open (m_port Samples.stopped_port) = false) by reflexivity.
  assert (H3 : (if IsChar (SlotInt 65) then inr (slotRawChar (SlotInt 65))
                else slotIntVal (SlotInt 65)) = inr 65) by reflexivity.
  split; [exact H1|]. split; [exact H2|]. split; [exact H3|].
  exact (put_on_closed_port Samples.good_device (Samples.holding Samples.stopped_port)
           Samples.stopped_port (SlotInt 65) 65 Samples.world0 H1 H2 H3).
Defined.
